(** * Binary patch scripts of bf1942-linux: patch_ctf_respawn.py and
      patch_ctf_flags_map.py

    Both scripts define one function, [patch_file], which checks the bytes of
    a server binary at a fixed offset and overwrites them in place when they
    are the expected ones.  This development embeds the two functions over a
    small model of the Python runtime they use (str, bytes, binascii, os.path
    and binary file objects) and proves the properties of the patch protocol.

    Model of the runtime:
    - a Python [str] is a [string]; a character of code 128 or more stands
      for a non-ASCII code point;
    - a Python [bytes] is a [list byte];
    - a Python [int] is a [Z];
    - the file system is a finite map from paths to nodes; a node is a
      regular file that can be opened for update, or something that exists
      but whose [open(..., "r+b")] raises [OSError] (a directory, a file
      without permission);
    - exceptions are values of [exn]; a computation returns a value or
      raises;
    - once a file is open, reads and writes on it succeed (no disk fault). *)

From Stdlib Require Import ZArith NArith Strings.String Strings.Ascii Strings.Byte.
From stdpp Require Import base list strings gmap.

Local Open Scope Z_scope.

(** ** Bytes and hexadecimal text *)

Abbreviation bytes := (list byte).

#[global] Instance byte_eq_decision : EqDecision byte := Byte.byte_eq_dec.

Inductive exn : Type :=
| BinasciiError   (* binascii.Error, a subclass of ValueError *)
| ValueError
| OSError.        (* IOError is OSError *)

#[global] Instance exn_eq_decision : EqDecision exn.
Proof. solve_decision. Defined.

Inductive res (A : Type) : Type :=
| Ok (a : A)
| Raise (e : exn).
Arguments Ok {A} a.
Arguments Raise {A} e.

(** [s.replace(" ", "")]: every U+0020 is dropped, nothing else. *)
Fixpoint replace_space (s : string) : string :=
  match s with
  | EmptyString => EmptyString
  | String c s' =>
      if Ascii.eqb c " "%char then replace_space s'
      else String c (replace_space s')
  end.

(** The digit table of CPython ([_PyLong_DigitValue]): 0-9, then a-z and A-Z
    as 10..35, 37 for every other character. *)
Definition digit_value (c : ascii) : N :=
  let n := N_of_ascii c in
  if ((48 <=? n) && (n <=? 57))%N then (n - 48)%N
  else if ((97 <=? n) && (n <=? 122))%N then (n - 87)%N
  else if ((65 <=? n) && (n <=? 90))%N then (n - 55)%N
  else 37%N.

Definition is_hex_digit (c : ascii) : bool := (digit_value c <? 16)%N.

Definition is_ascii_char (c : ascii) : bool := (N_of_ascii c <? 128)%N.

Fixpoint is_ascii (s : string) : bool :=
  match s with
  | EmptyString => true
  | String c s' => is_ascii_char c && is_ascii s'
  end.

Definition byte_of_N (n : N) : byte := default x00 (Byte.of_N n).

(** The loop of [binascii.a2b_hex] over pairs of characters; [None] stands
    for "Non-hexadecimal digit found" (and for a dangling last character). *)
Fixpoint a2b_pairs (s : string) : option bytes :=
  match s with
  | EmptyString => Some []
  | String _ EmptyString => None
  | String a (String b rest) =>
      let top := digit_value a in
      let bot := digit_value b in
      if ((16 <=? top) || (16 <=? bot))%N then None
      else cons (byte_of_N (top * 16 + bot)) <$> a2b_pairs rest
  end.

(** [binascii.unhexlify] on a [str] argument: a non-ASCII string is refused
    with a plain [ValueError]; an odd length or a character that is no
    hexadecimal digit raises [binascii.Error]. *)
Definition unhexlify (s : string) : res bytes :=
  if negb (is_ascii s) then Raise ValueError
  else if Nat.odd (String.length s) then Raise BinasciiError
  else match a2b_pairs s with
       | Some b => Ok b
       | None => Raise BinasciiError
       end.

Definition hex_char (n : N) : ascii :=
  if (n <? 10)%N then ascii_of_N (48 + n) else ascii_of_N (87 + n).

(** [binascii.hexlify(b).decode('utf-8')]: two lower-case digits per byte. *)
Fixpoint hexlify (b : bytes) : string :=
  match b with
  | [] => EmptyString
  | x :: b' =>
      let n := Byte.to_N x in
      String (hex_char (n / 16)) (String (hex_char (n mod 16)) (hexlify b'))
  end.

(** The slice [s[:n]]. *)
Definition str_prefix (n : nat) (s : string) : string := String.substring 0 n s.

(** ** Files *)

Inductive node : Type :=
| Regular (content : bytes)
| Unopenable.

#[global] Instance node_eq_decision : EqDecision node.
Proof. solve_decision. Defined.

(** Bounds of the file offset type (64 bits, signed); [seek] refuses an
    integer outside them with [ValueError] before any system call. *)
Definition OFF_T_MIN : Z := - 2 ^ 63.
Definition OFF_T_MAX : Z := 2 ^ 63 - 1.

(** Bytes returned by [read(n)] at position [pos]: what is there, up to [n]
    bytes; nothing at or after the end of the file. *)
Definition read_at (content : bytes) (pos n : nat) : bytes :=
  take n (drop pos content).

(** Content after [write(b)] at position [pos]: the bytes are overwritten in
    place, the file grows when the write ends after its end, and a gap
    between the old end and [pos] reads as zeros.  Writing no byte changes
    nothing. *)
Definition write_at (content : bytes) (pos : nat) (b : bytes) : bytes :=
  match b with
  | [] => content
  | _ => take pos content ++ replicate (pos - length content) x00
         ++ b ++ drop (pos + length b) content
  end.

(** What the script prints, one constructor per [print] call of the source;
    the arguments are the values interpolated in the text. *)
Inductive line : Type :=
| Processing (filename : string)               (* --- Processing ... --- *)
| ErrNotFound (filename : string)              (* [ERROR] File not found *)
| ErrInvalidHex                                (* [ERROR] Invalid hex data in script *)
| WarnLength (new_len orig_len : nat)          (* [WARNING] Replacement length ... *)
| OkMatch (offset : Z)                         (* [OK] Original bytes match at offset *)
| Success (filename : string)                  (* [SUCCESS] Patched ... *)
| InfoAlreadyPatched                           (* [INFO] ... ALREADY PATCHED *)
| FailMismatch (offset : Z)                    (* [FAIL] Byte mismatch at offset *)
| FailExpected (hex : string)                  (*        Expected: ... *)
| FailFound (hex : string)                     (*        Found:    ... *)
| FailAbort                                    (*        Aborting patch for this file *)
| ErrIO                                        (* [ERROR] Could not open/write file *)
| Blank.                                       (* print("\n") *)

(** Operations on the file system, in the order they are issued. *)
Inductive event : Type :=
| EvExists (path : string)
| EvOpen (path : string)
| EvSeek (pos : nat)
| EvRead (n : nat) (data : bytes)
| EvWrite (pos : nat) (data : bytes)
| EvClose.

#[global] Instance line_eq_decision : EqDecision line.
Proof. solve_decision. Defined.
#[global] Instance event_eq_decision : EqDecision event.
Proof. solve_decision. Defined.

(** The state a call runs in: the file system, the file object bound by the
    [with] statement (path and position) while it is open, the lines printed
    and the file-system operations issued so far. *)
Record world : Type := World {
  fs : gmap string node;
  open_file : option (string * nat);
  stdout : list line;
  syscalls : list event
}.

Definition boot (files : gmap string node) : world :=
  World files None [] [].

(** ** The monad of the scripts: state and exceptions *)

Definition IO (A : Type) : Type := world → res A * world.

Definition io_ret {A} (a : A) : IO A := λ w, (Ok a, w).

Definition io_bind {A B} (m : IO A) (k : A → IO B) : IO B :=
  λ w, match m w with
       | (Ok a, w') => k a w'
       | (Raise e, w') => (Raise e, w')
       end.

#[global] Instance io_mret : MRet IO := @io_ret.
#[global] Instance io_mbind : MBind IO := λ A B k m, io_bind m k.

Notation "m ;;; k" := (io_bind m (λ _, k))
  (at level 100, k at level 200, right associativity).

Definition lift_res {A} (r : res A) : IO A := λ w, (r, w).

(** [try: m except E: h], where [E] is the class [catches] recognises. *)
Definition try_except {A} (m : IO A) (catches : exn → bool) (h : IO A) : IO A :=
  λ w, match m w with
       | (Ok a, w') => (Ok a, w')
       | (Raise e, w') => if catches e then h w' else (Raise e, w')
       end.

Definition is_binascii_error (e : exn) : bool :=
  match e with BinasciiError => true | _ => false end.

Definition is_io_error (e : exn) : bool :=
  match e with OSError => true | _ => false end.

Definition print (l : line) : IO unit :=
  λ w, (Ok tt, World (fs w) (open_file w) (stdout w ++ [l]) (syscalls w)).

Definition emit (e : event) : IO unit :=
  λ w, (Ok tt, World (fs w) (open_file w) (stdout w) (syscalls w ++ [e])).

(** [os.path.exists]. *)
Definition os_path_exists (path : string) : IO bool :=
  emit (EvExists path);;;
  λ w, (Ok (bool_decide (is_Some (fs w !! path))), w).

(** [open(path, "r+b")]: the file must exist and be openable for update; it
    is not truncated and the position starts at 0. *)
Definition open_update (path : string) : IO unit :=
  emit (EvOpen path);;;
  λ w, match fs w !! path with
       | Some (Regular _) =>
           (Ok tt, World (fs w) (Some (path, 0%nat)) (stdout w) (syscalls w))
       | _ => (Raise OSError, w)
       end.

(** Leaving the [with] block closes the file object. *)
Definition f_close : IO unit :=
  λ w, match open_file w with
       | Some _ => (Ok tt, World (fs w) None (stdout w) (syscalls w ++ [EvClose]))
       | None => (Ok tt, w)
       end.

(** [f.seek(offset)]: an integer that does not fit the offset type is a
    [ValueError]; a negative offset is refused by the system ([OSError]). *)
Definition f_seek (offset : Z) : IO unit :=
  λ w, match open_file w with
       | None => (Raise ValueError, w)
       | Some (p, _) =>
           if bool_decide (offset < OFF_T_MIN ∨ OFF_T_MAX < offset)
           then (Raise ValueError, w)
           else if bool_decide (offset < 0) then (Raise OSError, w)
           else (Ok tt, World (fs w) (Some (p, Z.to_nat offset)) (stdout w)
                              (syscalls w ++ [EvSeek (Z.to_nat offset)]))
       end.

(** [f.read(n)]. *)
Definition f_read (n : nat) : IO bytes :=
  λ w, match open_file w with
       | None => (Raise ValueError, w)
       | Some (p, pos) =>
           match fs w !! p with
           | Some (Regular c) =>
               let data := read_at c pos n in
               (Ok data, World (fs w) (Some (p, (pos + length data)%nat)) (stdout w)
                               (syscalls w ++ [EvRead n data]))
           | _ => (Raise OSError, w)
           end
       end.

(** [f.write(b)]. *)
Definition f_write (b : bytes) : IO unit :=
  λ w, match open_file w with
       | None => (Raise ValueError, w)
       | Some (p, pos) =>
           match fs w !! p with
           | Some (Regular c) =>
               (Ok tt, World (<[p := Regular (write_at c pos b)]> (fs w))
                             (Some (p, (pos + length b)%nat)) (stdout w)
                             (syscalls w ++ [EvWrite pos b]))
           | _ => (Raise OSError, w)
           end
       end.

(** [with open(path, "r+b") as f: body]: the file is closed on every way out
    of the body, and an exception of the body goes on after the close. *)
Definition with_open (path : string) (body : IO unit) : IO unit :=
  open_update path;;;
  λ w, match body w with
       | (Ok tt, w') => f_close w'
       | (Raise e, w') => (Raise e, snd (f_close w'))
       end.

(** ** The two scripts *)

Module Respawn.

(** [patch_file] of patch_ctf_respawn.py. *)
Definition patch_file (filename : string) (offset : Z)
    (original_hex new_hex : string) : IO unit :=
  print (Processing filename);;;
  found ← os_path_exists filename;
  if negb found then
    print (ErrNotFound filename)                                  (* return *)
  else
    decoded ← try_except
      (orig_bytes ← lift_res (unhexlify (replace_space original_hex));
       new_bytes ← lift_res (unhexlify (replace_space new_hex));
       mret (Some (orig_bytes, new_bytes)))
      is_binascii_error
      (print ErrInvalidHex;;; mret None);                         (* return *)
    match decoded with
    | None => mret tt
    | Some (orig_bytes, new_bytes) =>
        (if bool_decide (length orig_bytes ≠ length new_bytes)
         then print (WarnLength (length new_bytes) (length orig_bytes))
         else mret tt);;;
        try_except
          (with_open filename
             (f_seek offset;;;
              current_data ← f_read (length orig_bytes);
              if bool_decide (current_data = orig_bytes) then
                print (OkMatch offset);;;
                f_seek offset;;;
                f_write new_bytes;;;
                print (Success filename)
              else if bool_decide (current_data = new_bytes) then
                print InfoAlreadyPatched
              else
                print (FailMismatch offset);;;
                print (FailExpected (hexlify orig_bytes));;;
                print (FailFound (hexlify current_data));;;
                print FailAbort))
          is_io_error
          (print ErrIO);;;
        print Blank
    end.

(** The data of the script. *)
Definition static_file : string := "bf1942_lnxded.static".
Definition static_offset : Z := 0x249dcd.
Definition static_orig : string :=
  "50 56 E8 EC 0C DC FF 5A 59 50 A1 18 D9 70 08 50 FF 53 68 83 C4 20 EB A8 90 8D 76 00".
Definition static_new : string :=
  "56 50 ff 53 68 8b 5d 08 8b 43 4c 8b 80 70 01 00 00 89 83 1c 01 00 00 83 c4 20 eb a4".
Definition dynamic_file : string := "bf1942_lnxded.dynamic".
Definition dynamic_offset : Z := 0x250e3d.
Definition dynamic_orig : string :=
  "50 56 E8 EC 0C DC FF 5A 59 50 A1 18 B4 6B 08 50 FF 53 68 83 C4 20 EB A8 90 8D 76 00".
Definition dynamic_new : string :=
  "56 50 ff 53 68 8b 5d 08 8b 43 4c 8b 80 70 01 00 00 89 83 1c 01 00 00 83 c4 20 eb a4".

(** The script run as a program: the two descriptors, one after the other. *)
Definition main : IO unit :=
  patch_file static_file static_offset static_orig static_new;;;
  patch_file dynamic_file dynamic_offset dynamic_orig dynamic_new.

End Respawn.

Module FlagsMap.

(** [patch_file] of patch_ctf_flags_map.py: the same steps; the diagnostic of
    a mismatch shows the first 30 hexadecimal digits only. *)
Definition patch_file (filename : string) (offset : Z)
    (original_hex new_hex : string) : IO unit :=
  print (Processing filename);;;
  found ← os_path_exists filename;
  if negb found then
    print (ErrNotFound filename)                                  (* return *)
  else
    decoded ← try_except
      (orig_bytes ← lift_res (unhexlify (replace_space original_hex));
       new_bytes ← lift_res (unhexlify (replace_space new_hex));
       mret (Some (orig_bytes, new_bytes)))
      is_binascii_error
      (print ErrInvalidHex;;; mret None);                         (* return *)
    match decoded with
    | None => mret tt
    | Some (orig_bytes, new_bytes) =>
        (if bool_decide (length orig_bytes ≠ length new_bytes)
         then print (WarnLength (length new_bytes) (length orig_bytes))
         else mret tt);;;
        try_except
          (with_open filename
             (f_seek offset;;;
              current_data ← f_read (length orig_bytes);
              if bool_decide (current_data = orig_bytes) then
                print (OkMatch offset);;;
                f_seek offset;;;
                f_write new_bytes;;;
                print (Success filename)
              else if bool_decide (current_data = new_bytes) then
                print InfoAlreadyPatched
              else
                print (FailMismatch offset);;;
                print (FailExpected (str_prefix 30 (hexlify orig_bytes)));;;
                print (FailFound (str_prefix 30 (hexlify current_data)));;;
                print FailAbort))
          is_io_error
          (print ErrIO);;;
        print Blank
    end.

(** The data of the script. *)
Definition static_file : string := "bf1942_lnxded.static".
Definition static_offset : Z := 0x249e80.
Definition static_orig : string :=
  "D8 05 D0 E4 6B 08 58 8B 45 98 89 45 B8 5A 8B 45 9C 8B 55 08 89 45 BC 8B 45 A0 D9 45 AC D9 45 B0 89 45 C0 D9 45 C0 D9 45 BC D9 CC D9 5D DC D9 C2 D9 C2 D9 C9 D8 CA D9 45 A8 D9 CA D8 CE D9 45 B8 D9 CA DE E1 D9 C2 D9 CE D8 CA D9 CB D8 CF D9 C9 D9 55 C8 D9 CE D8 CC D9 C9 DE E3 D9 CC D8 C9 D9 C3 D8 CE D9 C9 DE E5 D9 C6 D9 CB D9 55 D0 DC CB D9 CD D9 55 CC D9 CD D8 CA D9 CC D8 CD D9 C9 DE E4 D9 C9 DE CC DE E9 D9 CC DE CB D9 5D AC DE E1 D9 C9 D9 5D A8 D9 5D B0".
Definition static_new : string :=
  "d9 54 24 04 c7 04 24 00 02 00 02 8B 75 0C 8B 06 56 FF 50 3C 89 04 24 68 38 bb 71 08 6a c0 50 50 d8 63 34 d9 5c 24 00 50 8d 43 30 ff 70 08 ff 70 04 ff 30 83 ec 20 8d 44 24 38 50 83 e8 0c 50 83 e8 0c 50 83 e8 04 50 83 e8 0c 50 83 e8 0c 50 83 e8 04 50 a1 24 dc 71 08 50 8b 08 ff 51 48 83 c4 20 84 c0 74 06 D9 44 24 08 eb 04 D9 44 24 44 a1 f0 35 74 08 50 8b 08 ff 51 5c dd e1 df e0 f6 c4 45 74 04 dd d8 eb 02 dd d9 d8 05 d0 e4 6b 08 D9 5D DC 83 c4 4c 8B 55 08".
Definition dynamic_file : string := "bf1942_lnxded.dynamic".
Definition dynamic_offset : Z := 0x250ef0.
Definition dynamic_orig : string :=
  "D8 05 D0 27 67 08 58 8B 45 98 89 45 B8 5A 8B 45 9C 8B 55 08 89 45 BC 8B 45 A0 D9 45 AC D9 45 B0 89 45 C0 D9 45 C0 D9 45 BC D9 CC D9 5D DC D9 C2 D9 C2 D9 C9 D8 CA D9 45 A8 D9 CA D8 CE D9 45 B8 D9 CA DE E1 D9 C2 D9 CE D8 CA D9 CB D8 CF D9 C9 D9 55 C8 D9 CE D8 CC D9 C9 DE E3 D9 CC D8 C9 D9 C3 D8 CE D9 C9 DE E5 D9 C6 D9 CB D9 55 D0 DC CB D9 CD D9 55 CC D9 CD D8 CA D9 CC D8 CD D9 C9 DE E4 D9 C9 DE CC DE E9 D9 CC DE CB D9 5D AC DE E1 D9 C9 D9 5D A8 D9 5D B0".
Definition dynamic_new : string :=
  "d9 54 24 04 c7 04 24 00 02 00 02 8B 75 0C 8B 06 56 FF 50 3C 89 04 24 68 38 96 6c 08 31 c0 50 50 d8 63 34 d9 5c 24 00 50 8d 43 30 ff 70 08 ff 70 04 ff 30 83 ec 20 8d 44 24 38 50 83 e8 0c 50 83 e8 0c 50 83 e8 04 50 83 e8 0c 50 83 e8 0c 50 83 e8 04 50 a1 24 b7 6c 08 50 8b 08 ff 51 48 83 c4 20 84 c0 74 06 D9 44 24 08 eb 04 D9 44 24 44 a1 f0 10 6f 08 50 8b 08 ff 51 5c dd e1 df e0 f6 c4 45 74 04 dd d8 eb 02 dd d9 d8 05 D0 27 67 08 D9 5D DC 83 c4 4c 8B 55 08".

(** The script run as a program: the two descriptors, one after the other. *)
Definition main : IO unit :=
  patch_file static_file static_offset static_orig static_new;;;
  patch_file dynamic_file dynamic_offset dynamic_orig dynamic_new.

End FlagsMap.

(** ** Reading the outcome of a call *)

(** The Patch Application Result of the specification, with the error of the
    hexadecimal text. *)
Inductive PatchApplicationResult : Type :=
| NotFound | Applied | AlreadyApplied | Mismatch | IOFailure
| LengthWarning | MalformedHex.

#[global] Instance result_eq_decision : EqDecision PatchApplicationResult.
Proof. solve_decision. Defined.

(** The result a printed line reports, if it is a status line. *)
Definition status_of (l : line) : option PatchApplicationResult :=
  match l with
  | ErrNotFound _ => Some NotFound
  | ErrInvalidHex => Some MalformedHex
  | WarnLength _ _ => Some LengthWarning
  | Success _ => Some Applied
  | InfoAlreadyPatched => Some AlreadyApplied
  | FailMismatch _ => Some Mismatch
  | ErrIO => Some IOFailure
  | _ => None
  end.

Definition reported (out : list line) : list PatchApplicationResult :=
  omap status_of out.

(** A call, run from a file system with nothing open and nothing printed. *)
Record run_result : Type := RunResult {
  exit : res unit;                 (* returned, or the exception that escaped *)
  files_after : gmap string node;
  printed : list line;
  trace : list event
}.

Definition run (m : IO unit) (files : gmap string node) : run_result :=
  let '(r, w) := m (boot files) in
  RunResult r (fs w) (stdout w) (syscalls w).

(** The outcome of a run: the first result reported that is not the advisory
    warning. *)
Definition result_of (r : run_result) : option PatchApplicationResult :=
  head (filter (λ x, x ≠ LengthWarning) (reported (printed r))).

Definition warned (r : run_result) : bool :=
  bool_decide (LengthWarning ∈ reported (printed r)).

Definition is_write (e : event) : bool :=
  match e with EvWrite _ _ => true | _ => false end.

Definition is_open (e : event) : bool :=
  match e with EvOpen _ => true | _ => false end.

Definition wrote (r : run_result) : bool := existsb is_write (trace r).

Definition opened (r : run_result) : bool := existsb is_open (trace r).

(** ** What a call does, case by case *)

(** The [try] block of the conversion: the first string is decoded, then
    the second. *)
Definition decode_pair (original_hex new_hex : string) : res (bytes * bytes) :=
  match unhexlify (replace_space original_hex) with
  | Raise e => Raise e
  | Ok orig_bytes =>
      match unhexlify (replace_space new_hex) with
      | Raise e => Raise e
      | Ok new_bytes => Ok (orig_bytes, new_bytes)
      end
  end.

Definition length_check (orig_bytes new_bytes : bytes) : list line :=
  if bool_decide (length orig_bytes ≠ length new_bytes)
  then [WarnLength (length new_bytes) (length orig_bytes)] else [].

(** The two scripts differ in the diagnostic of a mismatch only. *)
Inductive script : Type := CtfRespawn | CtfFlagsMap.

Definition patch_file_of (s : script) : string → Z → string → string → IO unit :=
  match s with
  | CtfRespawn => Respawn.patch_file
  | CtfFlagsMap => FlagsMap.patch_file
  end.

Definition diagnostic (s : script) (orig_bytes current_data : bytes) : list line :=
  match s with
  | CtfRespawn =>
      [FailExpected (hexlify orig_bytes); FailFound (hexlify current_data)]
  | CtfFlagsMap =>
      [FailExpected (str_prefix 30 (hexlify orig_bytes));
       FailFound (str_prefix 30 (hexlify current_data))]
  end.

(** The run of [patch_file] written out as one case analysis on its inputs;
    [run_summary] below shows that this is what the scripts compute. *)
Definition summary (s : script) (filename : string) (offset : Z)
    (original_hex new_hex : string) (files : gmap string node) : run_result :=
  match files !! filename with
  | None =>
      RunResult (Ok tt) files [Processing filename; ErrNotFound filename]
                [EvExists filename]
  | Some nd =>
      match decode_pair original_hex new_hex with
      | Raise BinasciiError =>
          RunResult (Ok tt) files [Processing filename; ErrInvalidHex]
                    [EvExists filename]
      | Raise e =>
          RunResult (Raise e) files [Processing filename] [EvExists filename]
      | Ok (orig_bytes, new_bytes) =>
          let head := Processing filename :: length_check orig_bytes new_bytes in
          match nd with
          | Unopenable =>
              RunResult (Ok tt) files (head ++ [ErrIO; Blank])
                        [EvExists filename; EvOpen filename]
          | Regular c =>
              if bool_decide (offset < OFF_T_MIN ∨ OFF_T_MAX < offset) then
                RunResult (Raise ValueError) files head
                          [EvExists filename; EvOpen filename; EvClose]
              else if bool_decide (offset < 0) then
                RunResult (Ok tt) files (head ++ [ErrIO; Blank])
                          [EvExists filename; EvOpen filename; EvClose]
              else
                let pos := Z.to_nat offset in
                let current_data := read_at c pos (length orig_bytes) in
                let reads := [EvExists filename; EvOpen filename; EvSeek pos;
                              EvRead (length orig_bytes) current_data] in
                if bool_decide (current_data = orig_bytes) then
                  RunResult (Ok tt)
                    (<[filename := Regular (write_at c pos new_bytes)]> files)
                    (head ++ [OkMatch offset; Success filename; Blank])
                    (reads ++ [EvSeek pos; EvWrite pos new_bytes; EvClose])
                else if bool_decide (current_data = new_bytes) then
                  RunResult (Ok tt) files (head ++ [InfoAlreadyPatched; Blank])
                            (reads ++ [EvClose])
                else
                  RunResult (Ok tt) files
                    (head ++ [FailMismatch offset] ++ diagnostic s orig_bytes current_data
                          ++ [FailAbort; Blank])
                    (reads ++ [EvClose])
          end
      end
  end.

(** ** Notions used in the statements *)

(** The call, as a step on the file system. *)
Definition apply_respawn (filename : string) (offset : Z)
    (original_hex new_hex : string) (files : gmap string node) : gmap string node :=
  files_after (run (Respawn.patch_file filename offset original_hex new_hex) files).

(** Length of the regular file at a path, if there is one. *)
Definition file_length (files : gmap string node) (path : string) : option nat :=
  match files !! path with
  | Some (Regular c) => Some (length c)
  | _ => None
  end.

(** ASCII lower case of a character: A-Z go to a-z. *)
Definition ascii_lower (c : ascii) : ascii :=
  let n := N_of_ascii c in
  if ((65 <=? n) && (n <=? 90))%N then ascii_of_N (n + 32) else c.

Fixpoint str_lower (s : string) : string :=
  match s with
  | EmptyString => EmptyString
  | String c s' => String (ascii_lower c) (str_lower s')
  end.

(** Characters Python calls white space in ASCII text: space, tab, line
    feed, vertical tab, form feed, carriage return. *)
Definition is_whitespace (c : ascii) : bool :=
  let n := N_of_ascii c in ((n =? 32) || ((9 <=? n) && (n <=? 13)))%N.

Fixpoint all_hex (s : string) : bool :=
  match s with
  | EmptyString => true
  | String c s' => is_hex_digit c && all_hex s'
  end.

(** Number of hexadecimal digits in a string. *)
Fixpoint hex_digit_count (s : string) : nat :=
  match s with
  | EmptyString => 0
  | String c s' => ((if is_hex_digit c then 1 else 0) + hex_digit_count s')%nat
  end.

(** A character that is neither a space nor a hexadecimal digit occurs. *)
Fixpoint has_invalid_digit (s : string) : bool :=
  match s with
  | EmptyString => false
  | String c s' =>
      (negb (Ascii.eqb c " "%char) && negb (is_hex_digit c)) || has_invalid_digit s'
  end.

(** The same, when every white-space character is tolerated. *)
Fixpoint has_invalid_digit_ws (s : string) : bool :=
  match s with
  | EmptyString => false
  | String c s' =>
      (negb (is_whitespace c) && negb (is_hex_digit c)) || has_invalid_digit_ws s'
  end.

Definition malformed (s : string) : Prop :=
  has_invalid_digit s = true ∨ Nat.odd (hex_digit_count s) = true.

(** A descriptor as the scripts ship them: both texts decode, to non-empty
    sequences of the same length that differ. *)
Definition shipped_descriptor (original_hex new_hex : string) (len : nat) : Prop :=
  ∃ orig_bytes new_bytes,
    decode_pair original_hex new_hex = Ok (orig_bytes, new_bytes)
    ∧ length orig_bytes = len ∧ length new_bytes = len
    ∧ orig_bytes ≠ new_bytes.

(** A file of 100 zero bytes followed by a window and one more byte. *)
Definition scenario_file (window : bytes) : gmap string node :=
  {[ "srv"%string := Regular (replicate 100 x00 ++ window ++ [x90]) ]}.

(** The world a computation leaves behind. *)
Definition world_after (m : IO unit) (w : world) : world := snd (m w).

(** What the mismatch diagnostic of a script shows of a hexadecimal text:
    all of it, or its first 30 digits. *)
Definition shown (s : script) (hex : string) : string :=
  match s with
  | CtfRespawn => hex
  | CtfFlagsMap => str_prefix 30 hex
  end.


(** The write operations of a run. *)
Definition writes (r : run_result) : list event := filter (λ e, is_write e) (trace r).

(** A text the conversion accepts: ASCII, and hexadecimal digits in even
    number once the spaces are gone. *)
Definition well_formed (s : string) : Prop := is_ascii s = true ∧ ¬ malformed s.

(** The first text the conversion looks at that is not well formed is not
    ASCII. *)
Definition text_not_ascii (original_hex new_hex : string) : Prop :=
  is_ascii original_hex = false
  ∨ well_formed original_hex ∧ is_ascii new_hex = false.

(** The first text the conversion looks at that is not well formed is ASCII
    and malformed. *)
Definition text_malformed (original_hex new_hex : string) : Prop :=
  is_ascii original_hex = true ∧ malformed original_hex
  ∨ well_formed original_hex ∧ is_ascii new_hex = true ∧ malformed new_hex.

(** One call of [patch_file]: the script it is taken from and its four
    arguments. *)
Record call : Type := Call {
  c_script : script;
  c_file : string;
  c_offset : Z;
  c_orig : string;
  c_new : string
}.

Definition run_call (k : call) (files : gmap string node) : run_result :=
  run (patch_file_of (c_script k) (c_file k) (c_offset k) (c_orig k) (c_new k)) files.

(** The call as a step on the file system. *)
Definition step (k : call) (files : gmap string node) : gmap string node :=
  files_after (run_call k files).

(** What a run shows, the file system apart. *)
Definition observed (r : run_result) : res unit * list line * list event :=
  (exit r, printed r, trace r).

(** What a call can learn of the file system: whether the target is there,
    whether it can be opened, and the bytes at the window. *)
Definition seen (k : call) (files : gmap string node) : option (option bytes) :=
  match files !! c_file k with
  | None => None
  | Some Unopenable => Some None
  | Some (Regular c) =>
      Some (Some (match decode_pair (c_orig k) (c_new k) with
                  | Ok (orig_bytes, _) =>
                      read_at c (Z.to_nat (c_offset k)) (length orig_bytes)
                  | Raise _ => []
                  end))
  end.

(** First position after the bytes a call reads or writes. *)
Definition window_end (offset : Z) (orig_bytes new_bytes : bytes) : Z :=
  offset + Z.of_nat (length orig_bytes `max` length new_bytes).

(** Two calls that cannot interfere: they name different files, or both
    decode, to non-empty [original] sequences, at offsets that are not
    negative, and the windows they read and write do not overlap. *)
Definition separate (k1 k2 : call) : Prop :=
  c_file k1 ≠ c_file k2
  ∨ ∃ ob1 nb1 ob2 nb2,
      decode_pair (c_orig k1) (c_new k1) = Ok (ob1, nb1)
      ∧ decode_pair (c_orig k2) (c_new k2) = Ok (ob2, nb2)
      ∧ ob1 ≠ [] ∧ ob2 ≠ []
      ∧ 0 ≤ c_offset k1 ∧ 0 ≤ c_offset k2
      ∧ (window_end (c_offset k1) ob1 nb1 ≤ c_offset k2
         ∨ window_end (c_offset k2) ob2 nb2 ≤ c_offset k1).

(** The [__main__] block of a script, and its two calls. *)
Definition main_of (s : script) : IO unit :=
  match s with
  | CtfRespawn => Respawn.main
  | CtfFlagsMap => FlagsMap.main
  end.

Definition static_call (s : script) : call :=
  match s with
  | CtfRespawn =>
      Call CtfRespawn Respawn.static_file Respawn.static_offset
           Respawn.static_orig Respawn.static_new
  | CtfFlagsMap =>
      Call CtfFlagsMap FlagsMap.static_file FlagsMap.static_offset
           FlagsMap.static_orig FlagsMap.static_new
  end.

Definition dynamic_call (s : script) : call :=
  match s with
  | CtfRespawn =>
      Call CtfRespawn Respawn.dynamic_file Respawn.dynamic_offset
           Respawn.dynamic_orig Respawn.dynamic_new
  | CtfFlagsMap =>
      Call CtfFlagsMap FlagsMap.dynamic_file FlagsMap.dynamic_offset
           FlagsMap.dynamic_orig FlagsMap.dynamic_new
  end.

(** Number of bytes each descriptor of a script replaces. *)
Definition patch_len (s : script) : nat :=
  match s with CtfRespawn => 28 | CtfFlagsMap => 152 end.

(** What a result becomes when the same call is made again. *)
Definition settle (x : PatchApplicationResult) : PatchApplicationResult :=
  match x with Applied => AlreadyApplied | _ => x end.

(** A call as the scripts make them: both texts decode, to sequences of
    [len] bytes that differ, and the offset is one a file can have. *)
Definition shipped_call (k : call) (len : nat) : Prop :=
  shipped_descriptor (c_orig k) (c_new k) len
  ∧ 0 ≤ c_offset k ≤ OFF_T_MAX.

(** ** Proofs *)

(** *** The summary is what the scripts compute *)

Ltac unfold_io :=
  unfold with_open, os_path_exists, open_update;
  unfold mbind, io_mbind, mret, io_mret, try_except, f_seek, f_read, f_write,
    f_close, print, emit, lift_res, io_ret;
  unfold io_bind.

Lemma run_summary s filename offset original_hex new_hex files :
  run (patch_file_of s filename offset original_hex new_hex) files
  = summary s filename offset original_hex new_hex files.
Proof.
  unfold summary, decode_pair, length_check.
  destruct s; unfold patch_file_of, Respawn.patch_file, FlagsMap.patch_file, run, boot;
    unfold_io; simpl.
  all: rewrite bool_decide_decide.
  all: destruct (files !! filename) as [nd|] eqn:Hnd; simpl.
  all: try (destruct (decide (is_Some (@None node))) as [[? ?]|]; [discriminate|reflexivity]).
  all: destruct (decide (is_Some (Some nd))) as [_|Hn]; [|exfalso; apply Hn; eauto]; simpl.
  all: destruct (unhexlify (replace_space original_hex)) as [ob|[]]; simpl; try reflexivity.
  all: destruct (unhexlify (replace_space new_hex)) as [nb|[]]; simpl; try reflexivity.
  all: case_bool_decide; simpl; rewrite Hnd; destruct nd as [c|]; simpl; try reflexivity.
  all: repeat (first [rewrite Hnd | case_bool_decide]; simpl; try reflexivity);
    try contradiction.
Qed.

Lemma run_respawn filename offset original_hex new_hex files :
  run (Respawn.patch_file filename offset original_hex new_hex) files
  = summary CtfRespawn filename offset original_hex new_hex files.
Proof. apply (run_summary CtfRespawn). Qed.

Lemma run_flags_map filename offset original_hex new_hex files :
  run (FlagsMap.patch_file filename offset original_hex new_hex) files
  = summary CtfFlagsMap filename offset original_hex new_hex files.
Proof. apply (run_summary CtfFlagsMap). Qed.

Lemma off_t_bounds : OFF_T_MIN < 0 < OFF_T_MAX.
Proof. done. Qed.

Ltac off_lia := pose proof off_t_bounds; lia.

(** Case analysis on everything [summary] looks at. *)
Ltac summary_cases :=
  unfold summary, length_check;
  repeat match goal with
  | H : ?x = _ |- context [match ?x with _ => _ end] => rewrite H
  | |- context [bool_decide ?P] => destruct (bool_decide_reflect P)
  | |- context [match ?x with _ => _ end] =>
      lazymatch x with
      | context [match _ with _ => _ end] => fail
      | _ => destruct x eqn:?
      end
  end.

Ltac crush_run :=
  unfold wrote, opened, warned, result_of, reported in *;
  simpl in *; try done; try congruence; try off_lia.

(** A call that reports Applied found a regular file holding [original] at
    the window, and left [replacement] written over it. *)
Lemma applied_inv s filename offset original_hex new_hex files :
  result_of (run (patch_file_of s filename offset original_hex new_hex) files)
    = Some Applied →
  ∃ c orig_bytes new_bytes,
    files !! filename = Some (Regular c)
    ∧ decode_pair original_hex new_hex = Ok (orig_bytes, new_bytes)
    ∧ 0 ≤ offset ≤ OFF_T_MAX
    ∧ read_at c (Z.to_nat offset) (length orig_bytes) = orig_bytes
    ∧ files_after (run (patch_file_of s filename offset original_hex new_hex) files)
      = <[filename := Regular (write_at c (Z.to_nat offset) new_bytes)]> files.
Proof.
  rewrite run_summary. summary_cases; crush_run.
  all: try (destruct s; crush_run).
  all: intros _; eexists _, _, _; repeat split; (done || off_lia).
Qed.

(** *** Reading and writing a window of a file *)

Section window.

Context (c : bytes) (pos : nat).

Lemma length_read_at n :
  length (read_at c pos n) = (n `min` (length c - pos))%nat.
Proof. unfold read_at. by rewrite length_take, length_drop. Qed.

(** A read that returns as many bytes as were asked for, and at least one,
    lies inside the file. *)
Lemma read_at_full (ob : bytes) :
  read_at c pos (length ob) = ob → ob ≠ [] → (pos + length ob ≤ length c)%nat.
Proof.
  intros Hr Hne. apply (f_equal length) in Hr. rewrite length_read_at in Hr.
  assert (length ob ≠ 0%nat) by (by destruct ob). lia.
Qed.

Lemma read_at_short n :
  (0 < n)%nat → (length c < pos + n)%nat → (length (read_at c pos n) < n)%nat.
Proof. rewrite length_read_at. lia. Qed.

Lemma write_at_nil : write_at c pos [] = c.
Proof. done. Qed.

Lemma write_at_inside (nb : bytes) :
  (pos ≤ length c)%nat →
  write_at c pos nb = take pos c ++ nb ++ drop (pos + length nb) c.
Proof.
  intros Hle. destruct nb as [|x nb].
  - simpl. by rewrite Nat.add_0_r, take_drop.
  - unfold write_at. by replace (pos - length c)%nat with 0%nat by lia.
Qed.

Lemma length_write_at (nb : bytes) :
  (pos + length nb ≤ length c)%nat → length (write_at c pos nb) = length c.
Proof.
  intros Hle. rewrite write_at_inside by lia.
  rewrite !length_app, length_take, length_drop. lia.
Qed.

(** Bytes before the window and after it are the ones of the old content,
    also when the write makes the file longer. *)
Lemma write_at_outside (nb : bytes) i :
  (pos ≤ length c)%nat → (i < pos ∨ pos + length nb ≤ i)%nat →
  write_at c pos nb !! i = c !! i.
Proof.
  intros Hle Hi. rewrite write_at_inside by done.
  destruct Hi as [Hi|Hi].
  - rewrite lookup_app_l by (rewrite length_take; lia).
    by rewrite lookup_take_lt by lia.
  - rewrite lookup_app_r by (rewrite length_take; lia).
    rewrite length_take. replace (pos `min` length c)%nat with pos by lia.
    rewrite lookup_app_r by lia. rewrite lookup_drop. f_equal. lia.
Qed.

Lemma write_at_window (nb : bytes) j :
  (pos ≤ length c)%nat → (j < length nb)%nat →
  write_at c pos nb !! (pos + j)%nat = nb !! j.
Proof.
  intros Hle Hj. rewrite write_at_inside by done.
  rewrite lookup_app_r by (rewrite length_take; lia).
  rewrite length_take. replace (pos + j - pos `min` length c)%nat with j by lia.
  by rewrite lookup_app_l by lia.
Qed.

Lemma write_at_split (nb : bytes) :
  nb ≠ [] →
  ∃ pre post, length pre = pos ∧ write_at c pos nb = pre ++ nb ++ post
              ∧ (length c ≤ length (pre ++ nb ++ post))%nat.
Proof.
  intros Hne.
  exists (take pos c ++ replicate (pos - length c) x00), (drop (pos + length nb) c).
  split; [|split].
  - rewrite length_app, length_take, length_replicate. lia.
  - destruct nb; [done|]. unfold write_at. by rewrite <- (assoc_L (++)).
  - rewrite !length_app, length_take, length_replicate, length_drop. lia.
Qed.

End window.

Lemma write_at_middle (pre mid post nb : bytes) :
  length mid = length nb →
  write_at (pre ++ mid ++ post) (length pre) nb = pre ++ nb ++ post.
Proof.
  intros Hlen. rewrite write_at_inside by (rewrite length_app; lia).
  rewrite take_app_length. f_equal. f_equal.
  rewrite <- Hlen, <- drop_drop, drop_app_length. by rewrite drop_app_length.
Qed.

(** Writing the same bytes at the same place a second time changes nothing. *)
Lemma write_at_idemp (c : bytes) pos (nb : bytes) :
  write_at (write_at c pos nb) pos nb = write_at c pos nb.
Proof.
  destruct (decide (nb = [])) as [->|Hne]; [done|].
  destruct (write_at_split c pos nb Hne) as (pre & post & Hpre & -> & _).
  subst pos. by apply write_at_middle.
Qed.

Lemma read_at_middle (pre mid post : bytes) n :
  (n ≤ length mid)%nat → read_at (pre ++ mid ++ post) (length pre) n = take n mid.
Proof.
  intros Hn. unfold read_at. rewrite drop_app_length. by rewrite take_app_le.
Qed.

(** After [replacement] was written at the offset, a read of len(original)
    bytes there returns [replacement] exactly when the two lengths agree
    (the file held a full window before the write). *)
Lemma read_back (c : bytes) pos (ob nb : bytes) :
  read_at c pos (length ob) = ob →
  read_at (write_at c pos nb) pos (length ob) = nb ↔ length ob = length nb.
Proof.
  intros Hr. destruct (decide (nb = [])) as [->|Hne].
  - rewrite write_at_nil, Hr. split; [by intros -> | by destruct ob].
  - destruct (write_at_split c pos nb Hne) as (pre & post & Hpre & -> & Hlen).
    split.
    + intros Hb. apply (f_equal length) in Hb. rewrite length_read_at in Hb.
      destruct (decide (ob = [])) as [->|Hob]; [destruct nb; simpl in *; [done|lia]|].
      pose proof (read_at_full _ _ _ Hr Hob). lia.
    + intros Heq. subst pos. rewrite read_at_middle by lia.
      by rewrite Heq, firstn_all.
Qed.

(** *** Hexadecimal text *)

Lemma string_pair_ind (P : string → Prop) :
  P EmptyString →
  (∀ a, P (String a EmptyString)) →
  (∀ a b rest, P rest → P (String a (String b rest))) →
  ∀ s, P s.
Proof.
  intros H0 H1 H2.
  fix IH 1. intros [|a [|b rest]]; [apply H0 | apply H1 | apply H2, IH].
Qed.

Lemma digit_value_lower c : digit_value (ascii_lower c) = digit_value c.
Proof. destruct c as [[] [] [] [] [] [] [] []]; reflexivity. Qed.

Lemma hex_char_digit_value c :
  is_hex_digit c = true → hex_char (digit_value c) = ascii_lower c.
Proof. destruct c as [[] [] [] [] [] [] [] []]; (reflexivity || discriminate). Qed.

Lemma hex_digit_not_space c : is_hex_digit c = true → Ascii.eqb c " "%char = false.
Proof. destruct c as [[] [] [] [] [] [] [] []]; (reflexivity || discriminate). Qed.

Lemma to_N_byte_of_N n : (n < 256)%N → Byte.to_N (byte_of_N n) = n.
Proof.
  intros Hn. unfold byte_of_N. destruct (Byte.of_N n) as [y|] eqn:Hy; simpl.
  - by apply Byte.to_of_N.
  - apply Byte.of_N_None_iff in Hy. lia.
Qed.

Lemma is_hex_digit_lt c : is_hex_digit c = true ↔ (digit_value c < 16)%N.
Proof. unfold is_hex_digit. apply N.ltb_lt. Qed.

(** The loop fails exactly on an odd length or a character that is not a
    hexadecimal digit. *)
Lemma a2b_pairs_None s :
  a2b_pairs s = None ↔ Nat.odd (String.length s) = true ∨ all_hex s = false.
Proof.
  induction s as [|a|a b rest IH] using string_pair_ind.
  - simpl. split; [done | by intros [|]].
  - simpl. split; [by left | done].
  - cbn [a2b_pairs String.length all_hex].
    replace (Nat.odd (S (S (String.length rest)))) with (Nat.odd (String.length rest))
      by done.
    unfold is_hex_digit.
    destruct (N.ltb_spec (digit_value a) 16), (N.ltb_spec (digit_value b) 16);
      destruct (N.leb_spec 16 (digit_value a)), (N.leb_spec 16 (digit_value b));
      try lia; simpl; try (split; [by right | done]).
    destruct (a2b_pairs rest) as [b'|]; simpl.
    + split; [done|]. intros Hbad. by apply IH in Hbad.
    + split; [intros _; by apply IH | done].
Qed.

(** What the loop returns reads back, in lower case, as the text it was
    given. *)
Lemma hexlify_a2b_pairs s b : a2b_pairs s = Some b → hexlify b = str_lower s.
Proof.
  revert b. induction s as [|a|a c rest IH] using string_pair_ind; intros b.
  - by intros [= <-].
  - done.
  - cbn [a2b_pairs str_lower].
    destruct (N.leb_spec 16 (digit_value a)), (N.leb_spec 16 (digit_value c));
      simpl; try done.
    destruct (a2b_pairs rest) as [b'|]; [|done]. intros [= <-].
    cbn [hexlify]. rewrite to_N_byte_of_N by lia.
    rewrite (IH b' eq_refl).
    replace ((digit_value a * 16 + digit_value c) / 16)%N with (digit_value a)
      by (apply N.div_unique with (digit_value c); lia).
    replace ((digit_value a * 16 + digit_value c) mod 16)%N with (digit_value c)
      by (apply N.mod_unique with (digit_value a); lia).
    by rewrite !hex_char_digit_value by (by apply is_hex_digit_lt).
Qed.

Lemma is_ascii_replace_space s : is_ascii s = true → is_ascii (replace_space s) = true.
Proof.
  induction s as [|c s IH]; [done|]. simpl. intros [Hc Hs]%andb_true_iff.
  destruct (Ascii.eqb c " "); simpl; [by apply IH|]. by rewrite Hc, IH.
Qed.

Lemma all_hex_replace_space s : all_hex (replace_space s) = negb (has_invalid_digit s).
Proof.
  induction s as [|c s IH]; [done|]. simpl.
  destruct (Ascii.eqb c " ") eqn:Hsp; simpl; [done|].
  rewrite IH. by destruct (is_hex_digit c).
Qed.

Lemma length_replace_space s :
  has_invalid_digit s = false →
  String.length (replace_space s) = hex_digit_count s.
Proof.
  induction s as [|c s IH]; [done|]. simpl.
  intros [Hc Hs]%orb_false_iff.
  destruct (Ascii.eqb c " ") eqn:Hsp; simpl in *.
  - destruct (is_hex_digit c) eqn:Hh; [|by apply IH].
    apply hex_digit_not_space in Hh. congruence.
  - destruct (is_hex_digit c); [|done]. by rewrite IH.
Qed.

(** Letter case does not matter to the conversion. *)
Lemma ascii_lower_space c : Ascii.eqb (ascii_lower c) " " = Ascii.eqb c " ".
Proof. destruct c as [[] [] [] [] [] [] [] []]; reflexivity. Qed.

Lemma is_ascii_char_lower c : is_ascii_char (ascii_lower c) = is_ascii_char c.
Proof. destruct c as [[] [] [] [] [] [] [] []]; reflexivity. Qed.

Lemma replace_space_lower s : replace_space (str_lower s) = str_lower (replace_space s).
Proof.
  induction s as [|c s IH]; [done|]. simpl. rewrite ascii_lower_space.
  destruct (Ascii.eqb c " "); simpl; by rewrite IH.
Qed.

Lemma is_ascii_lower s : is_ascii (str_lower s) = is_ascii s.
Proof.
  induction s as [|c s IH]; [done|]. simpl. by rewrite is_ascii_char_lower, IH.
Qed.

Lemma length_lower s : String.length (str_lower s) = String.length s.
Proof. induction s as [|c s IH]; [done|]. simpl. by rewrite IH. Qed.

Lemma a2b_pairs_lower s : a2b_pairs (str_lower s) = a2b_pairs s.
Proof.
  induction s as [|a|a b rest IH] using string_pair_ind; [done..|].
  cbn [str_lower a2b_pairs]. by rewrite !digit_value_lower, IH.
Qed.

Lemma unhexlify_lower s : unhexlify (str_lower s) = unhexlify s.
Proof.
  unfold unhexlify. by rewrite is_ascii_lower, length_lower, a2b_pairs_lower.
Qed.

Lemma decode_pair_lower original_hex new_hex :
  decode_pair (str_lower original_hex) (str_lower new_hex)
  = decode_pair original_hex new_hex.
Proof.
  unfold decode_pair. by rewrite !replace_space_lower, !unhexlify_lower.
Qed.

(** For ASCII text, the conversion raises [binascii.Error] exactly on
    malformed text, and otherwise returns bytes that read back as the text
    without its spaces, in lower case. *)
Lemma unhexlify_ascii s :
  is_ascii s = true →
  (unhexlify (replace_space s) = Raise BinasciiError ↔ malformed s)
  ∧ (¬ malformed s →
       ∃ b, unhexlify (replace_space s) = Ok b
            ∧ hexlify b = str_lower (replace_space s)).
Proof.
  intros Ha. unfold unhexlify, malformed.
  rewrite (is_ascii_replace_space s Ha). simpl.
  pose proof (a2b_pairs_None (replace_space s)) as Hnone.
  rewrite all_hex_replace_space in Hnone.
  pose proof (length_replace_space s) as Hlen.
  destruct (has_invalid_digit s) eqn:Hinv; simpl in *.
  - assert (a2b_pairs (replace_space s) = None) as -> by (apply Hnone; by right).
    destruct (Nat.odd _); split; try done; try (by intros []; left);
      by split; [left|].
  - rewrite (Hlen eq_refl) in *.
    destruct (Nat.odd (hex_digit_count s)) eqn:Hodd.
    + split; [by split; [right|] | by intros []; right].
    + destruct (a2b_pairs (replace_space s)) as [b|] eqn:Hb.
      * split; [split; [done | by intros [|]] |].
        intros _. exists b. split; [done|]. by apply hexlify_a2b_pairs.
      * destruct (proj1 Hnone eq_refl); done.
Qed.

(** *** The properties of the patch protocol *)

(** C1, counterexample.  A descriptor whose [replacement] is the same bytes
    as [original]: the bytes read equal [replacement], and yet the call
    writes and reports Applied, since the comparison with [original] comes
    first. *)
Lemma three_way_counterexample :
  let files : gmap string node := {[ "srv"%string := Regular [x90; x8d; x76; x00] ]} in
  let r := run (Respawn.patch_file "srv" 1 "8D 76" "8d 76") files in
  decode_pair "8D 76" "8d 76" = Ok ([x8d; x76], [x8d; x76])
  ∧ read_at [x90; x8d; x76; x00] 1 2 = [x8d; x76]
  ∧ wrote r = true
  ∧ result_of r = Some Applied
  ∧ result_of r ≠ Some AlreadyApplied.
Proof. vm_compute. repeat split; congruence. Qed.

(** C1 (three-way classification, as amended).  For a target that is a
    regular file, a descriptor that decodes and an offset the file object
    accepts, either script reads len(original) bytes at the offset and then:
    - if they equal [original], it seeks back to the offset, writes
      [replacement] in full and reports Applied;
    - if they differ from [original] and equal [replacement], it writes
      nothing and reports AlreadyApplied;
    - if they equal neither, it writes nothing and reports Mismatch. *)
Theorem three_way_classification s filename offset original_hex new_hex files
    c orig_bytes new_bytes :
  files !! filename = Some (Regular c) →
  decode_pair original_hex new_hex = Ok (orig_bytes, new_bytes) →
  0 ≤ offset ≤ OFF_T_MAX →
  let pos := Z.to_nat offset in
  let current_data := read_at c pos (length orig_bytes) in
  let reads := [EvExists filename; EvOpen filename; EvSeek pos;
                EvRead (length orig_bytes) current_data] in
  let r := run (patch_file_of s filename offset original_hex new_hex) files in
  exit r = Ok tt
  ∧ (current_data = orig_bytes →
       result_of r = Some Applied
       ∧ trace r = reads ++ [EvSeek pos; EvWrite pos new_bytes; EvClose]
       ∧ files_after r = <[filename := Regular (write_at c pos new_bytes)]> files)
  ∧ (current_data ≠ orig_bytes → current_data = new_bytes →
       result_of r = Some AlreadyApplied
       ∧ trace r = reads ++ [EvClose] ∧ wrote r = false
       ∧ files_after r = files)
  ∧ (current_data ≠ orig_bytes → current_data ≠ new_bytes →
       result_of r = Some Mismatch
       ∧ trace r = reads ++ [EvClose] ∧ wrote r = false
       ∧ files_after r = files).
Proof.
  intros Hc Hd Hoff pos current_data reads r.
  subst r reads current_data pos. rewrite run_summary.
  summary_cases; try off_lia; crush_run.
  all: destruct s; crush_run.
Qed.

Lemma three_way_classification_witness :
  let files : gmap string node := {[ "srv"%string := Regular [x90; x50; x56; x90] ]} in
  let r := run (patch_file_of CtfRespawn "srv" 1 "50 56" "56 50") files in
  result_of r = Some Applied
  ∧ trace r = [EvExists "srv"; EvOpen "srv"; EvSeek 1; EvRead 2 [x50; x56]]
              ++ [EvSeek 1; EvWrite 1 [x56; x50]; EvClose]
  ∧ files_after r
    = <[ "srv"%string := Regular (write_at [x90; x50; x56; x90] 1 [x56; x50]) ]> files.
Proof.
  intros files r.
  apply (three_way_classification CtfRespawn "srv" 1 "50 56" "56 50" files
           [x90; x50; x56; x90] [x50; x56] [x56; x50]);
    [reflexivity | reflexivity | vm_compute; split; discriminate | reflexivity].
Defined.

(** C2 (write exclusivity).  A call writes, or changes the file system, only
    when the target is a regular file and the bytes read at the window
    [offset, offset+len(original)) are exactly [original].  When the window
    holds neither [original] nor [replacement], the call writes nothing and
    the file system is the same afterwards, and so it is after any number of
    calls. *)
Theorem write_exclusivity filename offset original_hex new_hex files :
  let r := run (Respawn.patch_file filename offset original_hex new_hex) files in
  (wrote r = true ∨ files_after r ≠ files →
     ∃ c orig_bytes new_bytes,
       files !! filename = Some (Regular c)
       ∧ decode_pair original_hex new_hex = Ok (orig_bytes, new_bytes)
       ∧ 0 ≤ offset
       ∧ read_at c (Z.to_nat offset) (length orig_bytes) = orig_bytes)
  ∧ (∀ c orig_bytes new_bytes,
       files !! filename = Some (Regular c) →
       decode_pair original_hex new_hex = Ok (orig_bytes, new_bytes) →
       read_at c (Z.to_nat offset) (length orig_bytes) ≠ orig_bytes →
       read_at c (Z.to_nat offset) (length orig_bytes) ≠ new_bytes →
       wrote r = false ∧ files_after r = files
       ∧ ∀ n, Nat.iter n (apply_respawn filename offset original_hex new_hex) files
              = files).
Proof.
  intros r.
  assert (Hstep : ∀ c orig_bytes new_bytes,
       files !! filename = Some (Regular c) →
       decode_pair original_hex new_hex = Ok (orig_bytes, new_bytes) →
       read_at c (Z.to_nat offset) (length orig_bytes) ≠ orig_bytes →
       wrote r = false ∧ files_after r = files).
  { intros c ob nb Hc Hd Ho. subst r. rewrite run_respawn.
    summary_cases; crush_run. }
  split.
  - subst r. rewrite run_respawn. clear Hstep. summary_cases;
      try (by intros [?|?]; crush_run).
    all: intros _; eexists _, _, _; repeat split; [lia | done].
  - intros c ob nb Hc Hd Ho Hn. destruct (Hstep c ob nb Hc Hd Ho) as [Hw Hf].
    repeat split; try done.
    induction n as [|n IH]; [done|]. simpl. rewrite IH. apply Hf.
Qed.

Lemma write_exclusivity_witness :
  let files : gmap string node :=
    {[ "srv"%string := Regular [x00; x00; x00; x00] ]} in
  let r := run (Respawn.patch_file "srv" 1 "50 56" "56 50") files in
  wrote r = false ∧ files_after r = files
  ∧ ∀ n, Nat.iter n (apply_respawn "srv" 1 "50 56" "56 50") files = files.
Proof.
  intros files r.
  apply (proj2 (write_exclusivity "srv" 1 "50 56" "56 50" files)
           [x00; x00; x00; x00] [x50; x56] [x56; x50]);
    [reflexivity | reflexivity | discriminate | discriminate].
Defined.

(** C3, counterexample.  A replacement shorter than the original (lengths 1
    and 2): the first call reports Applied, the second reads the new byte
    followed by the stale one and reports Mismatch. *)
Lemma idempotence_counterexample :
  let files : gmap string node := {[ "srv"%string := Regular [x90; x8d; x76; x00] ]} in
  let r1 := run (Respawn.patch_file "srv" 1 "8D 76" "c3") files in
  let r2 := run (Respawn.patch_file "srv" 1 "8D 76" "c3") (files_after r1) in
  result_of r1 = Some Applied
  ∧ result_of r2 = Some Mismatch
  ∧ result_of r2 ≠ Some AlreadyApplied.
Proof. vm_compute. repeat split; congruence. Qed.

(** C3 (idempotence, as amended).  Whenever a call reports Applied, the same
    call made again right after leaves the file system as the first call
    left it; it reports AlreadyApplied exactly when [replacement] has the
    length of [original] and differs from it. *)
Theorem apply_twice filename offset original_hex new_hex files orig_bytes new_bytes :
  decode_pair original_hex new_hex = Ok (orig_bytes, new_bytes) →
  let r1 := run (Respawn.patch_file filename offset original_hex new_hex) files in
  let r2 := run (Respawn.patch_file filename offset original_hex new_hex)
                (files_after r1) in
  result_of r1 = Some Applied →
  files_after r2 = files_after r1
  ∧ (result_of r2 = Some AlreadyApplied
     ↔ length orig_bytes = length new_bytes ∧ orig_bytes ≠ new_bytes).
Proof.
  intros Hd r1 r2 Happ. subst r1 r2.
  destruct (applied_inv CtfRespawn _ _ _ _ _ Happ)
    as (c & ob & nb & Hc & Hd' & Hoff & Hr & Hfiles).
  rewrite Hd in Hd'. injection Hd' as <- <-.
  simpl in Hfiles. rewrite Hfiles. clear Happ Hfiles.
  rewrite run_respawn.
  set (c' := write_at c (Z.to_nat offset) new_bytes).
  unfold summary. rewrite lookup_insert_eq, Hd.
  rewrite !bool_decide_eq_false_2 by off_lia.
  pose proof (read_back c (Z.to_nat offset) orig_bytes new_bytes Hr) as Hback.
  fold c' in Hback.
  destruct (decide (read_at c' (Z.to_nat offset) (length orig_bytes) = orig_bytes))
    as [Ho|Ho].
  - rewrite (bool_decide_eq_true_2 _ Ho). cbn [files_after]. split.
    + subst c'. by rewrite write_at_idemp, insert_insert_eq.
    + unfold length_check. case_bool_decide; crush_run.
      all: split; [done|]; intros [Hlen Hne]; exfalso; apply Hne;
        rewrite <- Ho; by apply Hback.
  - rewrite (bool_decide_eq_false_2 _ Ho).
    destruct (decide (read_at c' (Z.to_nat offset) (length orig_bytes) = new_bytes))
      as [Hn|Hn].
    + rewrite (bool_decide_eq_true_2 _ Hn). split; [done|].
      unfold length_check. case_bool_decide; crush_run.
      all: split; [intros _|done]; split; [by apply Hback | congruence].
    + rewrite (bool_decide_eq_false_2 _ Hn). split; [done|].
      unfold length_check. case_bool_decide; crush_run.
      all: split; [done|]; intros [Hlen _]; exfalso; by apply Hn, Hback.
Qed.

Lemma apply_twice_witness :
  let files : gmap string node := {[ "srv"%string := Regular [x90; x50; x56; x90] ]} in
  let r1 := run (Respawn.patch_file "srv" 1 "50 56" "56 50") files in
  let r2 := run (Respawn.patch_file "srv" 1 "50 56" "56 50") (files_after r1) in
  files_after r2 = files_after r1
  ∧ (result_of r2 = Some AlreadyApplied
     ↔ length [x50; x56] = length [x56; x50] ∧ [x50; x56] ≠ [x56; x50]).
Proof.
  intros files r1 r2.
  apply (apply_twice "srv" 1 "50 56" "56 50" files [x50; x56] [x56; x50]);
    reflexivity.
Defined.

(** C4 (frame).  A call never touches a file other than its target.  Unless
    it reports Applied, the file system is unchanged.  When it reports
    Applied, for a descriptor whose [original] is not empty, the target holds
    [replacement] at [offset, offset+len(replacement)) and every byte outside
    that range is as before. *)
Theorem frame_containment filename offset original_hex new_hex files :
  let r := run (Respawn.patch_file filename offset original_hex new_hex) files in
  (∀ path, path ≠ filename → files_after r !! path = files !! path)
  ∧ (result_of r ≠ Some Applied → files_after r = files)
  ∧ (∀ orig_bytes new_bytes,
       decode_pair original_hex new_hex = Ok (orig_bytes, new_bytes) →
       orig_bytes ≠ [] →
       result_of r = Some Applied →
       ∃ c c',
         files !! filename = Some (Regular c)
         ∧ files_after r !! filename = Some (Regular c')
         ∧ (∀ j, (j < length new_bytes)%nat →
                 c' !! (Z.to_nat offset + j)%nat = new_bytes !! j)
         ∧ (∀ i, (i < Z.to_nat offset ∨ Z.to_nat offset + length new_bytes ≤ i)%nat →
                 c' !! i = c !! i)).
Proof.
  intros r. subst r. rewrite run_respawn. repeat split.
  - intros path Hne. summary_cases; crush_run.
    all: by rewrite lookup_insert_ne.
  - summary_cases; crush_run.
  - intros ob nb Hd Hne. summary_cases; crush_run.
    all: intros _; eexists _, _; split; [done|]; rewrite lookup_insert_eq;
      split; [done|].
    all: match goal with
         | Hr : read_at ?c _ (length ?o) = ?o |- _ =>
             assert (Z.to_nat offset ≤ length c)%nat
               by (pose proof (read_at_full _ _ _ Hr Hne); lia)
         end.
    all: split; intros; [by apply write_at_window | by apply write_at_outside].
Qed.

Lemma frame_containment_witness :
  let files : gmap string node :=
    {[ "srv"%string := Regular [x90; x50; x56; x90] ]} in
  let r := run (Respawn.patch_file "srv" 1 "50 56" "56 50 ff ff") files in
  ∃ c c',
    files !! "srv" = Some (Regular c)
    ∧ files_after r !! "srv" = Some (Regular c')
    ∧ (∀ j, (j < 4)%nat → c' !! (Z.to_nat 1 + j)%nat = [x56; x50; xff; xff] !! j)
    ∧ (∀ i, (i < Z.to_nat 1 ∨ Z.to_nat 1 + 4 ≤ i)%nat → c' !! i = c !! i).
Proof.
  intros files r.
  apply (proj2 (proj2 (frame_containment "srv" 1 "50 56" "56 50 ff ff" files))
           [x50; x56] [x56; x50; xff; xff]); [reflexivity | discriminate | reflexivity].
Defined.

(** C5, counterexample.  The file ends one byte after the offset and that
    byte is the one-byte [replacement]; [original] has two bytes.  The file
    is shorter than offset+len(original), the read is short, and the call
    reports AlreadyApplied, not Mismatch. *)
Lemma short_read_counterexample :
  let files : gmap string node := {[ "srv"%string := Regular [x90; xc3] ]} in
  let r := run (Respawn.patch_file "srv" 1 "8D 76" "c3") files in
  (length [x90; xc3] < Z.to_nat 1 + length [x8d; x76])%nat
  ∧ decode_pair "8D 76" "c3" = Ok ([x8d; x76], [xc3])
  ∧ result_of r = Some AlreadyApplied
  ∧ result_of r ≠ Some Mismatch.
Proof. vm_compute. repeat split; (lia || congruence). Qed.

(** C5 (short read, as amended).  For a descriptor with a non-empty
    [original], an offset the file object accepts and a regular file shorter
    than offset+len(original): the read returns fewer bytes than requested,
    no error escapes, nothing is written and the file system is unchanged.
    The call reports Mismatch, unless the bytes read are exactly
    [replacement], where it reports AlreadyApplied; this needs a
    [replacement] shorter than [original]. *)
Theorem short_read_safe s filename offset original_hex new_hex files
    c orig_bytes new_bytes :
  files !! filename = Some (Regular c) →
  decode_pair original_hex new_hex = Ok (orig_bytes, new_bytes) →
  orig_bytes ≠ [] →
  0 ≤ offset ≤ OFF_T_MAX →
  (length c < Z.to_nat offset + length orig_bytes)%nat →
  let current_data := read_at c (Z.to_nat offset) (length orig_bytes) in
  let r := run (patch_file_of s filename offset original_hex new_hex) files in
  (length current_data < length orig_bytes)%nat
  ∧ exit r = Ok tt
  ∧ wrote r = false
  ∧ files_after r = files
  ∧ result_of r
    = Some (if bool_decide (current_data = new_bytes) then AlreadyApplied else Mismatch)
  ∧ ((length orig_bytes ≤ length new_bytes)%nat → result_of r = Some Mismatch).
Proof.
  intros Hc Hd Hne Hoff Hshort current_data r.
  assert (Hlt : (length current_data < length orig_bytes)%nat).
  { apply read_at_short; [|done]. destruct orig_bytes; [done|simpl; lia]. }
  assert (Hno : current_data ≠ orig_bytes) by (intros Heq; rewrite Heq in Hlt; lia).
  split; [done|].
  subst r. fold current_data in Hno. rewrite run_summary. unfold summary.
  rewrite Hc, Hd. rewrite !bool_decide_eq_false_2 by off_lia.
  fold current_data. rewrite (bool_decide_eq_false_2 _ Hno).
  unfold length_check.
  destruct (decide (current_data = new_bytes)) as [Hn|Hn].
  - rewrite (bool_decide_eq_true_2 _ Hn). case_bool_decide; crush_run.
    all: repeat split; intros; rewrite Hn in Hlt; lia.
  - rewrite (bool_decide_eq_false_2 _ Hn). case_bool_decide; destruct s; crush_run.
Qed.

Lemma short_read_safe_witness :
  let files : gmap string node := {[ "srv"%string := Regular [x90; x50] ]} in
  let current_data := read_at [x90; x50] (Z.to_nat 1) (length [x50; x56]) in
  let r := run (patch_file_of CtfRespawn "srv" 1 "50 56" "56 50") files in
  (length current_data < length [x50; x56])%nat
  ∧ exit r = Ok tt
  ∧ wrote r = false
  ∧ files_after r = files
  ∧ result_of r
    = Some (if bool_decide (current_data = [x56; x50]) then AlreadyApplied else Mismatch)
  ∧ ((length [x50; x56] ≤ length [x56; x50])%nat → result_of r = Some Mismatch).
Proof.
  intros files.
  apply (short_read_safe CtfRespawn "srv" 1 "50 56" "56 50" files
           [x90; x50] [x50; x56] [x56; x50]);
    [reflexivity | reflexivity | discriminate | vm_compute; split; discriminate
    | simpl; lia].
Defined.

(** C6 (missing-file safety).  When the target path does not exist, the call
    reports NotFound and returns normally; the only file-system operation is
    the existence test, so no file is opened or written and the file system
    is unchanged.  This holds whatever the offset and the two strings are. *)
Theorem missing_file_not_found filename offset original_hex new_hex files :
  files !! filename = None →
  let r := run (Respawn.patch_file filename offset original_hex new_hex) files in
  result_of r = Some NotFound
  ∧ exit r = Ok tt
  ∧ files_after r = files
  ∧ trace r = [EvExists filename]
  ∧ opened r = false ∧ wrote r = false.
Proof.
  intros Hnone r. subst r. rewrite run_respawn. unfold summary. rewrite Hnone.
  repeat split.
Qed.

Lemma missing_file_not_found_witness :
  let r := run (Respawn.patch_file "bf1942_lnxded.static" 0x249DCD "zz" "0") ∅ in
  result_of r = Some NotFound
  ∧ exit r = Ok tt
  ∧ files_after r = ∅
  ∧ trace r = [EvExists "bf1942_lnxded.static"]
  ∧ opened r = false ∧ wrote r = false.
Proof. apply missing_file_not_found. reflexivity. Defined.

(** C7, counterexample.  The two byte sequences have different lengths but
    the target does not exist: the call reports NotFound and prints no
    warning about the lengths; it never opens a file. *)
Lemma length_warning_counterexample :
  let r := run (Respawn.patch_file "srv" 1 "8D 76" "c3") ∅ in
  decode_pair "8D 76" "c3" = Ok ([x8d; x76], [xc3])
  ∧ length [x8d; x76] ≠ length [xc3]
  ∧ warned r = false
  ∧ opened r = false
  ∧ result_of r = Some NotFound.
Proof. vm_compute. repeat split; congruence. Qed.

(** C7 (the length warning is advisory, as amended).  When the target exists
    and the descriptor decodes to sequences of different lengths, the call
    prints the warning and goes on to open the target.  For a regular file
    and an offset the file object accepts it then reads len(original) bytes
    at the offset and classifies them as it does for equal lengths: on a
    match with [original] it writes the len(replacement) bytes of
    [replacement] at the offset and reports Applied; otherwise it writes
    nothing. *)
Theorem length_warning_advisory filename offset original_hex new_hex files
    orig_bytes new_bytes :
  is_Some (files !! filename) →
  decode_pair original_hex new_hex = Ok (orig_bytes, new_bytes) →
  length orig_bytes ≠ length new_bytes →
  let r := run (Respawn.patch_file filename offset original_hex new_hex) files in
  warned r = true
  ∧ take 2 (printed r)
    = [Processing filename; WarnLength (length new_bytes) (length orig_bytes)]
  ∧ take 2 (trace r) = [EvExists filename; EvOpen filename]
  ∧ (∀ c, files !! filename = Some (Regular c) → 0 ≤ offset ≤ OFF_T_MAX →
       let pos := Z.to_nat offset in
       let current_data := read_at c pos (length orig_bytes) in
       take 4 (trace r) = [EvExists filename; EvOpen filename; EvSeek pos;
                           EvRead (length orig_bytes) current_data]
       ∧ exit r = Ok tt
       ∧ (current_data = orig_bytes →
            result_of r = Some Applied
            ∧ drop 4 (trace r) = [EvSeek pos; EvWrite pos new_bytes; EvClose]
            ∧ files_after r = <[filename := Regular (write_at c pos new_bytes)]> files)
       ∧ (current_data ≠ orig_bytes →
            result_of r
            = Some (if bool_decide (current_data = new_bytes)
                    then AlreadyApplied else Mismatch)
            ∧ wrote r = false ∧ files_after r = files)).
Proof.
  intros [nd Hnd] Hd Hlen r. subst r. rewrite run_respawn.
  unfold summary, length_check. rewrite Hnd, Hd.
  rewrite (bool_decide_eq_true_2 _ Hlen).
  split; [|split; [|split]].
  1-3: destruct nd; repeat case_bool_decide; crush_run.
  intros c [= ->] Hoff. rewrite !bool_decide_eq_false_2 by off_lia.
  repeat case_bool_decide; crush_run.
Qed.

Lemma length_warning_advisory_witness :
  let files : gmap string node :=
    {[ "srv"%string := Regular [x90; x8d; x76; x00] ]} in
  let r := run (Respawn.patch_file "srv" 1 "8D 76" "c3") files in
  warned r = true
  ∧ result_of r = Some Applied
  ∧ drop 4 (trace r) = [EvSeek 1; EvWrite 1 [xc3]; EvClose]
  ∧ files_after r !! "srv" = Some (Regular [x90; xc3; x76; x00]).
Proof.
  intros files r.
  destruct (length_warning_advisory "srv" 1 "8D 76" "c3" files [x8d; x76] [xc3])
    as (Hw & _ & _ & Hrun);
    [by eexists | reflexivity | discriminate |].
  assert (Hoff : 0 ≤ 1 ≤ OFF_T_MAX) by (vm_compute; split; discriminate).
  destruct (Hrun [x90; x8d; x76; x00] eq_refl Hoff) as (_ & _ & Happ & _).
  destruct (Happ eq_refl) as (Hres & Htr & Hfs).
  split; [exact Hw | split; [exact Hres | split; [exact Htr |]]].
  unfold r. rewrite Hfs. reflexivity.
Defined.

(** What the call does with ASCII text, for a target that exists. *)
Lemma malformed_hex_reported filename offset original_hex new_hex files :
  is_Some (files !! filename) →
  is_ascii original_hex = true →
  is_ascii new_hex = true →
  let r := run (Respawn.patch_file filename offset original_hex new_hex) files in
  (result_of r = Some MalformedHex ↔ malformed original_hex ∨ malformed new_hex)
  ∧ (result_of r = Some MalformedHex →
       exit r = Ok tt ∧ files_after r = files ∧ trace r = [EvExists filename]
       ∧ opened r = false ∧ wrote r = false)
  ∧ (¬ malformed original_hex → ¬ malformed new_hex →
       ∃ orig_bytes new_bytes,
         decode_pair original_hex new_hex = Ok (orig_bytes, new_bytes)
         ∧ hexlify orig_bytes = str_lower (replace_space original_hex)
         ∧ hexlify new_bytes = str_lower (replace_space new_hex)).
Proof.
  intros [nd Hnd] Ha1 Ha2 r. subst r. rewrite run_respawn.
  destruct (unhexlify_ascii original_hex Ha1) as [Ho1 Ho2].
  destruct (unhexlify_ascii new_hex Ha2) as [Hn1 Hn2].
  unfold summary, decode_pair in *. rewrite Hnd.
  destruct (unhexlify (replace_space original_hex)) as [ob|e1] eqn:He1.
  - assert (Hok1 : ¬ malformed original_hex) by (rewrite <- Ho1; congruence).
    destruct (unhexlify (replace_space new_hex)) as [nb|e2] eqn:He2.
    + assert (Hok2 : ¬ malformed new_hex) by (rewrite <- Hn1; congruence).
      split; [|split].
      * unfold length_check. destruct nd; repeat case_bool_decide; crush_run;
          split; try done; by intros [|].
      * unfold length_check. destruct nd; repeat case_bool_decide; crush_run.
      * intros _ _. destruct (Ho2 Hok1) as (b1 & [= <-] & Hb1).
        destruct (Hn2 Hok2) as (b2 & [= <-] & Hb2). by exists ob, nb.
    + destruct (decide (e2 = BinasciiError)) as [->|Hne].
      * split; [|split]; crush_run.
        -- split; [intros _; right; by apply Hn1 | done].
        -- intros _ Hn. destruct Hn. by apply Hn1.
      * destruct (Hn2 (λ Hm, Hne ltac:(apply Hn1 in Hm; congruence)))
          as (b2 & Hb2 & _); congruence.
  - destruct (decide (e1 = BinasciiError)) as [->|Hne].
    + split; [|split]; crush_run.
      * split; [intros _; left; by apply Ho1 | done].
      * intros Hn. destruct Hn. by apply Ho1.
    + destruct (Ho2 (λ Hm, Hne ltac:(apply Ho1 in Hm; congruence)))
        as (b1 & Hb1 & _); congruence.
Qed.

(** C8, counterexample.  Two bytes separated by a tab: every character is a
    hexadecimal digit or white space and the number of digits is even, so a
    decoding that tolerates white space accepts the text; the script removes
    spaces only, and reports the text as malformed. *)
Lemma hex_decoding_counterexample :
  let original_hex := String "8" (String "D" (String "009" (String "7" (String "6" "")))) in
  let files : gmap string node := {[ "srv"%string := Regular [x90; x8d; x76; x00] ]} in
  let r := run (Respawn.patch_file "srv" 1 original_hex "c3 90") files in
  is_ascii original_hex = true
  ∧ has_invalid_digit_ws original_hex = false
  ∧ Nat.odd (hex_digit_count original_hex) = false
  ∧ unhexlify (replace_space original_hex) = Raise BinasciiError
  ∧ result_of r = Some MalformedHex.
Proof. vm_compute. repeat split. Qed.

(** C8 (hexadecimal decoding, as amended).  For a target that exists and two
    ASCII strings: the call reports MalformedHex exactly when one of the
    strings, spaces apart, holds a character that is no hexadecimal digit or
    an odd number of digits; it then returns without opening or writing any
    file.  Otherwise both strings decode, and the bytes obtained read back
    as the text without its spaces and in lower case: the decoding ignores
    spaces and letter case. *)
Theorem hex_decoding filename offset original_hex new_hex files :
  is_Some (files !! filename) →
  is_ascii original_hex = true →
  is_ascii new_hex = true →
  let r := run (Respawn.patch_file filename offset original_hex new_hex) files in
  (result_of r = Some MalformedHex ↔ malformed original_hex ∨ malformed new_hex)
  ∧ (result_of r = Some MalformedHex →
       exit r = Ok tt ∧ files_after r = files ∧ trace r = [EvExists filename]
       ∧ opened r = false ∧ wrote r = false)
  ∧ (¬ malformed original_hex → ¬ malformed new_hex →
       ∃ orig_bytes new_bytes,
         decode_pair original_hex new_hex = Ok (orig_bytes, new_bytes)
         ∧ hexlify orig_bytes = str_lower (replace_space original_hex)
         ∧ hexlify new_bytes = str_lower (replace_space new_hex))
  ∧ run (Respawn.patch_file filename offset (str_lower original_hex)
                            (str_lower new_hex)) files = r.
Proof.
  intros Hex Ha1 Ha2 r.
  destruct (malformed_hex_reported filename offset original_hex new_hex files
              Hex Ha1 Ha2) as (Hiff & Hskip & Hdec).
  split; [exact Hiff | split; [exact Hskip | split; [exact Hdec |]]].
  subst r. rewrite !run_respawn. unfold summary. by rewrite decode_pair_lower.
Qed.

Lemma hex_decoding_witness :
  let files : gmap string node := {[ "srv"%string := Regular [x90; x8d; x76; x00] ]} in
  let r := run (Respawn.patch_file "srv" 1 "8D 7" "c3 9g") files in
  (result_of r = Some MalformedHex ↔ malformed "8D 7" ∨ malformed "c3 9g")
  ∧ (result_of r = Some MalformedHex →
       exit r = Ok tt ∧ files_after r = files ∧ trace r = [EvExists "srv"]
       ∧ opened r = false ∧ wrote r = false)
  ∧ (¬ malformed "8D 7" → ¬ malformed "c3 9g" →
       ∃ orig_bytes new_bytes,
         decode_pair "8D 7" "c3 9g" = Ok (orig_bytes, new_bytes)
         ∧ hexlify orig_bytes = str_lower (replace_space "8D 7")
         ∧ hexlify new_bytes = str_lower (replace_space "c3 9g"))
  ∧ run (Respawn.patch_file "srv" 1 (str_lower "8D 7") (str_lower "c3 9g")) files
    = run (Respawn.patch_file "srv" 1 "8D 7" "c3 9g") files.
Proof.
  intros files.
  apply (hex_decoding "srv" 1 "8D 7" "c3 9g" files);
    [by eexists | reflexivity | reflexivity].
Defined.

(** C9 (the two copies agree).  On every input and every file system, the
    [patch_file] of patch_ctf_respawn.py and the one of
    patch_ctf_flags_map.py report the same results, leave the same file
    system, issue the same file-system operations and end the same way. *)
Theorem scripts_equivalent filename offset original_hex new_hex files :
  let r1 := run (Respawn.patch_file filename offset original_hex new_hex) files in
  let r2 := run (FlagsMap.patch_file filename offset original_hex new_hex) files in
  result_of r1 = result_of r2
  ∧ reported (printed r1) = reported (printed r2)
  ∧ files_after r1 = files_after r2
  ∧ trace r1 = trace r2
  ∧ exit r1 = exit r2.
Proof.
  intros r1 r2. subst r1 r2. rewrite run_respawn, run_flags_map.
  summary_cases; crush_run.
Qed.

(** C10 (length preservation).  When [original] and [replacement] have the
    same length, a call of either script leaves the length of every file as
    it was.  A write happens only after the read at the offset returned all
    the len(original) bytes asked for, and then, [original] being not empty,
    the window [offset, offset+len(replacement)) lies inside the file. *)
Theorem equal_lengths_preserve_file_length s filename offset original_hex new_hex
    files orig_bytes new_bytes :
  decode_pair original_hex new_hex = Ok (orig_bytes, new_bytes) →
  length orig_bytes = length new_bytes →
  let r := run (patch_file_of s filename offset original_hex new_hex) files in
  (∀ path, file_length (files_after r) path = file_length files path)
  ∧ (wrote r = true →
       ∃ c, files !! filename = Some (Regular c)
            ∧ length (read_at c (Z.to_nat offset) (length orig_bytes))
              = length orig_bytes
            ∧ (orig_bytes ≠ [] →
               (Z.to_nat offset + length new_bytes ≤ length c)%nat)).
Proof.
  intros Hd Hlen r. subst r. rewrite run_summary. split.
  - intros path. summary_cases; crush_run.
    unfold file_length. destruct (decide (path = filename)) as [->|Hne].
    + rewrite lookup_insert_eq.
      match goal with Hc : files !! filename = _ |- _ => rewrite Hc end. f_equal.
      destruct (decide (orig_bytes = [])) as [->|Hne].
      * destruct new_bytes; [done | discriminate].
      * apply length_write_at. rewrite <- Hlen. by apply read_at_full.
    + by rewrite lookup_insert_ne.
  - summary_cases; crush_run.
    intros _. eexists. split; [done|]. split; [congruence|].
    intros Hne. rewrite <- Hlen. by apply read_at_full.
Qed.

Lemma equal_lengths_preserve_file_length_witness :
  let files : gmap string node :=
    {[ "srv"%string := Regular [x90; x50; x56; x90] ]} in
  let r := run (patch_file_of CtfFlagsMap "srv" 1 "50 56" "56 50") files in
  (∀ path, file_length (files_after r) path = file_length files path)
  ∧ (wrote r = true →
       ∃ c, files !! "srv" = Some (Regular c)
            ∧ length (read_at c (Z.to_nat 1) (length [x50; x56])) = length [x50; x56]
            ∧ ([x50; x56] ≠ [] → (Z.to_nat 1 + length [x56; x50] ≤ length c)%nat)).
Proof.
  intros files r.
  apply (equal_lengths_preserve_file_length CtfFlagsMap "srv" 1 "50 56" "56 50" files
           [x50; x56] [x56; x50]); reflexivity.
Defined.

(** *** The descriptors of the two scripts, and the scenarios of the
    specification *)

Ltac shipped :=
  eexists _, _; split; [vm_compute; reflexivity |];
  split; [reflexivity | split; [reflexivity | discriminate]].

Example respawn_static_shipped :
  shipped_descriptor Respawn.static_orig Respawn.static_new 28.
Proof. shipped. Qed.

Example respawn_dynamic_shipped :
  shipped_descriptor Respawn.dynamic_orig Respawn.dynamic_new 28.
Proof. shipped. Qed.

Example flags_map_static_shipped :
  shipped_descriptor FlagsMap.static_orig FlagsMap.static_new 152.
Proof. shipped. Qed.

Example flags_map_dynamic_shipped :
  shipped_descriptor FlagsMap.dynamic_orig FlagsMap.dynamic_new 152.
Proof. shipped. Qed.

(** Neither binary is there: each descriptor is reported as not found, and
    the second is still processed after the first. *)
Example main_without_binaries :
  let r := run Respawn.main ∅ in
  exit r = Ok tt
  ∧ reported (printed r) = [NotFound; NotFound]
  ∧ trace r = [EvExists "bf1942_lnxded.static"; EvExists "bf1942_lnxded.dynamic"]
  ∧ files_after r = ∅.
Proof. vm_compute. repeat split. Qed.

(** Scenario A and B: applied, then already applied. *)
Example scenario_applied_then_already_applied :
  let r1 := run (Respawn.patch_file "srv" 100 "50 56 E8" "56 50 ff")
                (scenario_file [x50; x56; xe8]) in
  let r2 := run (Respawn.patch_file "srv" 100 "50 56 E8" "56 50 ff")
                (files_after r1) in
  result_of r1 = Some Applied
  ∧ files_after r1 = scenario_file [x56; x50; xff]
  ∧ result_of r2 = Some AlreadyApplied
  ∧ files_after r2 = files_after r1.
Proof. vm_compute. repeat split. Qed.

(** Scenario C: a window of zeros is a mismatch, shown with both byte
    strings; the file is unchanged. *)
Example scenario_mismatch :
  let r := run (Respawn.patch_file "srv" 100 "50 56 E8" "56 50 ff")
               (scenario_file [x00; x00; x00]) in
  printed r = [Processing "srv"; FailMismatch 100; FailExpected "5056e8";
               FailFound "000000"; FailAbort; Blank]
  ∧ files_after r = scenario_file [x00; x00; x00].
Proof. vm_compute. repeat split. Qed.

(** Scenario D: the file ends inside the window. *)
Example scenario_short_file :
  let files : gmap string node := {[ "srv"%string := Regular (replicate 101 x00) ]} in
  let r := run (Respawn.patch_file "srv" 100 "50 56 E8" "56 50 ff") files in
  result_of r = Some Mismatch ∧ exit r = Ok tt ∧ files_after r = files.
Proof. vm_compute. repeat split. Qed.

(** Scenario E: [original] of 8 bytes, [replacement] of 6; the warning is
    printed, 6 bytes are written and the last 2 bytes of the window stay. *)
Example scenario_shorter_replacement :
  let r := run (Respawn.patch_file "srv" 100 "01 02 03 04 05 06 07 08"
                                   "a1 a2 a3 a4 a5 a6")
               (scenario_file [x01; x02; x03; x04; x05; x06; x07; x08]) in
  reported (printed r) = [LengthWarning; Applied]
  ∧ files_after r = scenario_file [xa1; xa2; xa3; xa4; xa5; xa6; x07; x08].
Proof. vm_compute. repeat split. Qed.

(** The two scripts print different diagnostics for a long mismatch, and
    report the same result. *)
Example mismatch_diagnostics_differ :
  let orig := "00 01 02 03 04 05 06 07 08 09 0a 0b 0c 0d 0e 0f 10"%string in
  let files : gmap string node := {[ "srv"%string := Regular (replicate 32 xff) ]} in
  let r1 := run (Respawn.patch_file "srv" 0 orig orig) files in
  let r2 := run (FlagsMap.patch_file "srv" 0 orig orig) files in
  printed r1 ≠ printed r2 ∧ result_of r1 = Some Mismatch ∧ result_of r2 = Some Mismatch.
Proof. vm_compute. repeat split. discriminate. Qed.

(** Text that is not ASCII is not reported as malformed: the [ValueError] of
    the conversion is not a [binascii.Error] and leaves the function. *)
Example non_ascii_text_escapes :
  let files : gmap string node := {[ "srv"%string := Regular [x90] ]} in
  let r := run (Respawn.patch_file "srv" 0 (String "233" "0") "90") files in
  exit r = Raise ValueError ∧ result_of r = None ∧ files_after r = files.
Proof. vm_compute. repeat split. Qed.

(** *** Further properties of a call *)

(** A call started with lines already printed and operations already issued
    appends its own to them, and leaves no file object open. *)
Lemma exec_summary s filename offset original_hex new_hex files out tr :
  patch_file_of s filename offset original_hex new_hex (World files None out tr)
  = let r := summary s filename offset original_hex new_hex files in
    (exit r, World (files_after r) None (out ++ printed r) (tr ++ trace r)).
Proof.
  unfold summary, decode_pair, length_check.
  destruct s; unfold patch_file_of, Respawn.patch_file, FlagsMap.patch_file;
    unfold_io; simpl.
  all: rewrite bool_decide_decide.
  all: destruct (files !! filename) as [nd|] eqn:Hnd; simpl.
  all: try (destruct (decide (is_Some (@None node))) as [[? ?]|];
            [discriminate | by rewrite <- !(assoc_L (++))]).
  all: destruct (decide (is_Some (Some nd))) as [_|Hn]; [|exfalso; apply Hn; eauto]; simpl.
  all: destruct (unhexlify (replace_space original_hex)) as [ob|[]]; simpl;
    try by rewrite <- ?(assoc_L (++)).
  all: destruct (unhexlify (replace_space new_hex)) as [nb|[]]; simpl;
    try by rewrite <- ?(assoc_L (++)).
  all: case_bool_decide; simpl; rewrite Hnd; destruct nd as [c|]; simpl;
    try by rewrite <- ?(assoc_L (++)).
  all: repeat (first [rewrite Hnd | case_bool_decide]; simpl;
               try by rewrite <- ?(assoc_L (++)));
    try contradiction.
Qed.

(** X1.  Whatever its inputs, a call of either script leaves no file object
    open, also when an exception escapes it; it keeps what was printed and
    issued before and appends its own lines and operations. *)
Theorem call_appends_and_closes s filename offset original_hex new_hex files out tr :
  let r := run (patch_file_of s filename offset original_hex new_hex) files in
  let w := world_after (patch_file_of s filename offset original_hex new_hex)
                       (World files None out tr) in
  open_file w = None
  ∧ fs w = files_after r
  ∧ stdout w = out ++ printed r
  ∧ syscalls w = tr ++ trace r.
Proof.
  intros r w. subst r w. unfold world_after.
  rewrite exec_summary, run_summary. done.
Qed.

(** Spaces are ASCII: removing them does not change whether a text is. *)
Lemma is_ascii_replace_space_eq s : is_ascii (replace_space s) = is_ascii s.
Proof.
  induction s as [|c s IH]; [done|]. simpl.
  destruct (Ascii.eqb c " ") eqn:Hsp; simpl; [|by rewrite IH].
  apply Ascii.eqb_eq in Hsp as ->. by rewrite IH.
Qed.

Lemma unhexlify_value_error s :
  unhexlify (replace_space s) = Raise ValueError ↔ is_ascii s = false.
Proof.
  unfold unhexlify. rewrite is_ascii_replace_space_eq.
  destruct (is_ascii s); simpl; [|done].
  destruct (Nat.odd _); [done|]. by destruct (a2b_pairs _).
Qed.

Lemma unhexlify_not_os_error s : unhexlify s ≠ Raise OSError.
Proof.
  unfold unhexlify. destruct (negb _); [done|].
  destruct (Nat.odd _); [done|]. by destruct (a2b_pairs _).
Qed.

(** What the two texts are like, by the way their conversion ends. *)
Lemma decode_pair_cases original_hex new_hex :
  match decode_pair original_hex new_hex with
  | Ok _ =>
      is_ascii original_hex = true ∧ ¬ malformed original_hex
      ∧ is_ascii new_hex = true ∧ ¬ malformed new_hex
  | Raise BinasciiError =>
      is_ascii original_hex = true
      ∧ (malformed original_hex
         ∨ ¬ malformed original_hex ∧ is_ascii new_hex = true ∧ malformed new_hex)
  | Raise ValueError =>
      is_ascii original_hex = false
      ∨ is_ascii original_hex = true ∧ ¬ malformed original_hex
        ∧ is_ascii new_hex = false
  | Raise OSError => False
  end.
Proof.
  unfold decode_pair.
  pose proof (unhexlify_value_error original_hex) as Hv1.
  pose proof (unhexlify_value_error new_hex) as Hv2.
  pose proof (unhexlify_not_os_error (replace_space original_hex)) as Hos1.
  pose proof (unhexlify_not_os_error (replace_space new_hex)) as Hos2.
  destruct (is_ascii original_hex) eqn:A1;
    [|rewrite (proj2 Hv1 eq_refl); by left].
  destruct (unhexlify_ascii original_hex A1) as [M1 _].
  destruct (unhexlify (replace_space original_hex)) as [ob|e1] eqn:H1.
  - assert (N1 : ¬ malformed original_hex) by (rewrite <- M1; congruence).
    destruct (is_ascii new_hex) eqn:A2;
      [|rewrite (proj2 Hv2 eq_refl); by right].
    destruct (unhexlify_ascii new_hex A2) as [M2 _].
    destruct (unhexlify (replace_space new_hex)) as [nb|e2] eqn:H2.
    + repeat split; try done. rewrite <- M2. congruence.
    + destruct e2; [|by pose proof (proj1 Hv2 eq_refl)|done].
      split; [done|]. right. repeat split; try done. by apply M2.
  - destruct e1; [|by pose proof (proj1 Hv1 eq_refl)|done].
    split; [done|]. left. by apply M1.
Qed.

Lemma decode_pair_not_os_error original_hex new_hex :
  decode_pair original_hex new_hex ≠ Raise OSError.
Proof.
  intros H. pose proof (decode_pair_cases original_hex new_hex) as Hc.
  by rewrite H in Hc.
Qed.

Ltac no_os_error :=
  try match goal with
      | H : decode_pair ?a ?b = Raise OSError |- _ =>
          by destruct (decode_pair_not_os_error a b)
      end.


(** The three ways the conversion of the two texts ends, by the texts. *)
Lemma decode_pair_spec original_hex new_hex :
  ((∃ orig_bytes new_bytes, decode_pair original_hex new_hex = Ok (orig_bytes, new_bytes))
   ↔ well_formed original_hex ∧ well_formed new_hex)
  ∧ (decode_pair original_hex new_hex = Raise BinasciiError
     ↔ text_malformed original_hex new_hex)
  ∧ (decode_pair original_hex new_hex = Raise ValueError
     ↔ text_not_ascii original_hex new_hex).
Proof.
  pose proof (decode_pair_cases original_hex new_hex) as Hc.
  unfold well_formed, text_malformed, text_not_ascii, well_formed.
  destruct (decode_pair original_hex new_hex) as [[ob nb]|[]]; [| | |done];
    (split; [split; [intros (? & ? & ?) | intros ?; try (by eexists _, _)] |]);
    intuition congruence.
Qed.

(** X3.  An exception escapes a call exactly when the target exists and
    either the first text the conversion looks at that is not well formed is
    not ASCII, or both texts are well formed, the target is a regular file
    and the offset does not fit the 64-bit offset type.  A missing target
    never lets one escape. *)
Theorem call_raises_iff s filename offset original_hex new_hex files :
  let r := run (patch_file_of s filename offset original_hex new_hex) files in
  exit r ≠ Ok tt
  ↔ is_Some (files !! filename)
    ∧ (text_not_ascii original_hex new_hex
       ∨ well_formed original_hex ∧ well_formed new_hex
         ∧ (∃ c, files !! filename = Some (Regular c))
         ∧ (offset < OFF_T_MIN ∨ OFF_T_MAX < offset)).
Proof.
  intros r. subst r. rewrite run_summary.
  destruct (decode_pair_spec original_hex new_hex) as (Hok & Hbin & Hval).
  unfold summary.
  destruct (files !! filename) as [nd|] eqn:Hnd; simpl.
  2: { split; [done|]. by intros [[? ?] _]. }
  destruct (decode_pair original_hex new_hex) as [[ob nb]|e] eqn:Hd.
  - assert (Hwf : well_formed original_hex ∧ well_formed new_hex)
      by (apply Hok; eauto).
    assert (Hna : ¬ text_not_ascii original_hex new_hex)
      by (intros H; apply Hval in H; congruence).
    destruct nd as [c|]; simpl.
    + repeat case_bool_decide; simpl; split; try done.
      all: try (intros [_ [?|(_ & _ & _ & ?)]]; [done | off_lia]).
      all: intros _; (split; [by eexists|]); right; destruct Hwf; eauto 10.
    + split; [done|]. intros [_ [?|(_ & _ & [c ?] & _)]]; done.
  - destruct e; simpl.
    + split; [done|]. intros [_ [H|(W1 & W2 & _)]].
      * apply Hval in H. congruence.
      * by destruct (proj2 Hok (conj W1 W2)) as (? & ? & ?).
    + split; [|done]. intros _. split; [by eexists|]. left. by apply Hval.
    + by destruct (decode_pair_not_os_error original_hex new_hex).
Qed.

Lemma call_raises_iff_witness :
  let files : gmap string node := {[ "srv"%string := Regular [x90] ]} in
  exit (run (patch_file_of CtfRespawn "srv" 0 (String "233" "0") "90") files) ≠ Ok tt.
Proof.
  intros files.
  apply (proj2 (call_raises_iff CtfRespawn "srv" 0 (String "233" "0") "90" files)).
  split; [by eexists | left; left; reflexivity].
Defined.

(** X4.  Whatever the two texts are, a call reports MalformedHex exactly
    when the target exists and the first text that is not well formed is
    ASCII text with a character that is neither a space nor a hexadecimal
    digit, or with an odd number of digits. *)
Theorem malformed_hex_iff s filename offset original_hex new_hex files :
  let r := run (patch_file_of s filename offset original_hex new_hex) files in
  result_of r = Some MalformedHex
  ↔ is_Some (files !! filename) ∧ text_malformed original_hex new_hex.
Proof.
  intros r. subst r. rewrite run_summary.
  destruct (decode_pair_spec original_hex new_hex) as (Hok & Hbin & Hval).
  unfold summary, length_check.
  destruct (files !! filename) as [nd|] eqn:Hnd; simpl.
  2: { split; [done|]. by intros [[? ?] _]. }
  destruct (decode_pair original_hex new_hex) as [[ob nb]|e] eqn:Hd.
  - assert (Hnm : ¬ text_malformed original_hex new_hex)
      by (intros H; apply Hbin in H; congruence).
    destruct nd; repeat case_bool_decide; destruct s; crush_run;
      (split; [done | by intros [_ ?]]).
  - destruct e; crush_run.
    + split; [|done]. intros _. split; [by eexists | by apply Hbin].
    + split; [done|]. intros [_ H]. apply Hbin in H. congruence.
    + by destruct (decode_pair_not_os_error original_hex new_hex).
Qed.

Lemma malformed_hex_iff_witness :
  let files : gmap string node := {[ "srv"%string := Regular [x90] ]} in
  result_of (run (patch_file_of CtfFlagsMap "srv" 0 "8D 7" (String "233" "")) files)
  = Some MalformedHex.
Proof.
  intros files.
  apply (proj2 (malformed_hex_iff CtfFlagsMap "srv" 0 "8D 7" (String "233" "") files)).
  split; [by eexists | left; split; [reflexivity | right; reflexivity]].
Defined.



(** X6.  The warning about the lengths is printed exactly when the target
    exists and both texts decode, to sequences of different lengths. *)
Theorem length_warning_iff s filename offset original_hex new_hex files :
  let r := run (patch_file_of s filename offset original_hex new_hex) files in
  warned r = true
  ↔ is_Some (files !! filename)
    ∧ ∃ orig_bytes new_bytes,
        decode_pair original_hex new_hex = Ok (orig_bytes, new_bytes)
        ∧ length orig_bytes ≠ length new_bytes.
Proof.
  intros r. subst r. rewrite run_summary.
  summary_cases; no_os_error; crush_run; try (destruct s; crush_run).
  all: split; try done.
  all: try (intros [[? ?] _]; congruence).
  all: try (intros [_ (? & ? & ? & ?)]; by simplify_eq).
  all: intros _; split; [by eexists | by eexists _, _].
Qed.

Lemma length_warning_iff_witness :
  let files : gmap string node := {[ "srv"%string := Unopenable ]} in
  warned (run (patch_file_of CtfRespawn "srv" 4 "50 56" "c3") files) = true.
Proof.
  intros files.
  apply (proj2 (length_warning_iff CtfRespawn "srv" 4 "50 56" "c3" files)).
  split; [by eexists|]. exists [x50; x56], [xc3]. split; [reflexivity | discriminate].
Defined.

(** X7.  A call writes exactly when it reports Applied, and it never writes
    more than once: its only write, if any, is the whole of [replacement] at
    the offset. *)
Theorem writes_once_iff_applied s filename offset original_hex new_hex files :
  let r := run (patch_file_of s filename offset original_hex new_hex) files in
  (wrote r = true ↔ result_of r = Some Applied)
  ∧ (writes r = []
     ∨ ∃ orig_bytes new_bytes,
         decode_pair original_hex new_hex = Ok (orig_bytes, new_bytes)
         ∧ 0 ≤ offset
         ∧ writes r = [EvWrite (Z.to_nat offset) new_bytes]).
Proof.
  intros r. subst r. rewrite run_summary. unfold writes.
  summary_cases; no_os_error; crush_run; try (destruct s; crush_run);
    (split; [done|]); try (by left).
  all: right; eexists _, _; repeat split; (done || lia).
Qed.

Lemma writes_once_iff_applied_witness :
  let files : gmap string node := {[ "srv"%string := Regular [x90; x50; x56; x90] ]} in
  wrote (run (patch_file_of CtfRespawn "srv" 1 "50 56" "56 50") files) = true.
Proof.
  intros files.
  apply (proj2 (proj1 (writes_once_iff_applied CtfRespawn "srv" 1 "50 56" "56 50"
                         files))).
  reflexivity.
Defined.

Lemma unhexlify_ok s b : unhexlify s = Ok b → hexlify b = str_lower s.
Proof.
  unfold unhexlify. destruct (negb _); [done|]. destruct (Nat.odd _); [done|].
  destruct (a2b_pairs s) as [b'|] eqn:Hb; [|done].
  intros [= <-]. by apply hexlify_a2b_pairs.
Qed.

(** Bytes that were decoded read back as the texts, spaces removed and in
    lower case. *)
Lemma decode_pair_ok original_hex new_hex orig_bytes new_bytes :
  decode_pair original_hex new_hex = Ok (orig_bytes, new_bytes) →
  hexlify orig_bytes = str_lower (replace_space original_hex)
  ∧ hexlify new_bytes = str_lower (replace_space new_hex).
Proof.
  unfold decode_pair.
  destruct (unhexlify (replace_space original_hex)) as [ob|] eqn:H1; [|done].
  destruct (unhexlify (replace_space new_hex)) as [nb|] eqn:H2; [|done].
  intros [= <- <-]. split; by apply unhexlify_ok.
Qed.

Lemma length_hexlify (b : bytes) : String.length (hexlify b) = (2 * length b)%nat.
Proof. induction b as [|x b IH]; [done|]. simpl. rewrite IH. lia. Qed.

Lemma length_str_prefix n s : (String.length (str_prefix n s) ≤ n)%nat.
Proof.
  unfold str_prefix. revert s. induction n as [|n IH]; intros [|c s]; simpl;
    try lia. specialize (IH s). lia.
Qed.

(** X8.  When a call reports Mismatch, what it prints is: the header, the
    warning if the lengths differ, then the offset, the expected bytes as
    the text of the script without its spaces and in lower case, the bytes
    found in the file, in hexadecimal, and the two closing lines.  The
    flags-map script shows the first 30 digits of the two byte strings, the
    respawn script shows them whole. *)
Theorem mismatch_diagnostic s filename offset original_hex new_hex files :
  let r := run (patch_file_of s filename offset original_hex new_hex) files in
  result_of r = Some Mismatch →
  ∃ c orig_bytes new_bytes,
    files !! filename = Some (Regular c)
    ∧ decode_pair original_hex new_hex = Ok (orig_bytes, new_bytes)
    ∧ let current_data := read_at c (Z.to_nat offset) (length orig_bytes) in
      current_data ≠ orig_bytes ∧ current_data ≠ new_bytes
      ∧ printed r
        = Processing filename :: length_check orig_bytes new_bytes
          ++ [FailMismatch offset;
              FailExpected (shown s (str_lower (replace_space original_hex)));
              FailFound (shown s (hexlify current_data));
              FailAbort; Blank]
      ∧ String.length (hexlify current_data) = (2 * length current_data)%nat
      ∧ (s = CtfFlagsMap →
         (String.length (shown s (str_lower (replace_space original_hex))) ≤ 30)%nat
         ∧ (String.length (shown s (hexlify current_data)) ≤ 30)%nat).
Proof.
  intros r. subst r. rewrite run_summary. unfold summary.
  destruct (files !! filename) as [[c|]|] eqn:Hc.
  3: { crush_run. }
  2: { destruct (decode_pair _ _) as [[??]|[]]; unfold length_check;
         repeat case_bool_decide; crush_run. }
  destruct (decode_pair original_hex new_hex) as [[ob nb]|e] eqn:Hd.
  2: { destruct e; crush_run. }
  destruct (decode_pair_ok _ _ _ _ Hd) as [Hob _].
  unfold length_check.
  repeat case_bool_decide; crush_run.
  all: intros _; exists c, ob, nb; (split; [done|]); (split; [done|]).
  all: (split; [done|]); (split; [done|]); split;
    [by destruct s; simpl; rewrite ?Hob; repeat case_bool_decide|].
  all: split; [apply length_hexlify|].
  all: intros ->; split; apply length_str_prefix.
Qed.

Lemma mismatch_diagnostic_witness :
  let files : gmap string node := {[ "srv"%string := Regular (replicate 20 x00) ]} in
  let r := run (patch_file_of CtfFlagsMap "srv" 2
                  "D8 05 D0 E4 6B 08 58 8B 45 98 89 45 B8 5A 8B 45 9C"
                  "d9 54 24 04 c7 04 24 00 02 00 02 8B 75 0C 8B 06 56")
               files in
  printed r = [Processing "srv"; FailMismatch 2;
               FailExpected "d805d0e46b08588b45988945b85a8b";
               FailFound "000000000000000000000000000000";
               FailAbort; Blank].
Proof.
  intros files r.
  destruct (mismatch_diagnostic CtfFlagsMap "srv" 2
              "D8 05 D0 E4 6B 08 58 8B 45 98 89 45 B8 5A 8B 45 9C"
              "d9 54 24 04 c7 04 24 00 02 00 02 8B 75 0C 8B 06 56" files)
    as (c & ob & nb & Hc & Hd & _ & _ & Hp & _); [reflexivity|].
  fold r in Hp. rewrite Hp.
  vm_compute in Hc. injection Hc as <-.
  vm_compute in Hd. injection Hd as <- <-.
  reflexivity.
Defined.

(** *** Calls on separate windows *)

Section window_lookup.

Context (c : bytes) (pos : nat).

Lemma lookup_read_at n i :
  read_at c pos n !! i = if decide (i < n)%nat then c !! (pos + i)%nat else None.
Proof.
  unfold read_at. case_decide.
  - by rewrite lookup_take_lt, lookup_drop by done.
  - by rewrite lookup_take_ge by lia.
Qed.

Lemma lookup_write_at (nb : bytes) i :
  (pos ≤ length c)%nat →
  write_at c pos nb !! i
  = if decide (pos ≤ i < pos + length nb)%nat then nb !! (i - pos)%nat else c !! i.
Proof.
  intros Hle. case_decide as Hi.
  - replace i with (pos + (i - pos))%nat at 1 by lia.
    apply write_at_window; [done | lia].
  - apply write_at_outside; [done | lia].
Qed.

Lemma length_write_at_ge (nb : bytes) :
  (pos ≤ length c)%nat → (length c ≤ length (write_at c pos nb))%nat.
Proof.
  intros Hle. rewrite write_at_inside by done.
  rewrite !length_app, length_take, length_drop. lia.
Qed.

End window_lookup.

(** A read beside the window of a write returns what it returned before. *)
Lemma read_at_write_at_disjoint (c : bytes) p1 n1 p2 (nb2 : bytes) :
  (p2 ≤ length c)%nat →
  (p1 + n1 ≤ p2 ∨ p2 + length nb2 ≤ p1)%nat →
  read_at (write_at c p2 nb2) p1 n1 = read_at c p1 n1.
Proof.
  intros Hle Hdis. apply list_eq. intros i. rewrite !lookup_read_at.
  case_decide; [|done]. rewrite lookup_write_at by done.
  case_decide; [lia | done].
Qed.

(** Writes on windows that do not overlap can be made in either order. *)
Lemma write_at_commute (c : bytes) p1 (nb1 : bytes) p2 (nb2 : bytes) :
  (p1 ≤ length c)%nat → (p2 ≤ length c)%nat →
  (p1 + length nb1 ≤ p2 ∨ p2 + length nb2 ≤ p1)%nat →
  write_at (write_at c p1 nb1) p2 nb2 = write_at (write_at c p2 nb2) p1 nb1.
Proof.
  intros H1 H2 Hdis. apply list_eq. intros i.
  pose proof (length_write_at_ge c p1 nb1 H1).
  pose proof (length_write_at_ge c p2 nb2 H2).
  rewrite !lookup_write_at by lia.
  repeat case_decide; (done || lia).
Qed.

Lemma run_call_summary k files :
  run_call k files
  = summary (c_script k) (c_file k) (c_offset k) (c_orig k) (c_new k) files.
Proof. apply run_summary. Qed.

(** A call shows the same on two file systems in which it sees the same. *)
Lemma observed_by_seen k files1 files2 :
  seen k files1 = seen k files2 →
  observed (run_call k files1) = observed (run_call k files2).
Proof.
  rewrite !run_call_summary. unfold seen, summary, observed.
  destruct (files1 !! c_file k) as [[c1|]|], (files2 !! c_file k) as [[c2|]|];
    try done.
  all: destruct (decode_pair (c_orig k) (c_new k)) as [[ob nb]|[]]; try done.
  intros [= ->]. by repeat case_bool_decide.
Qed.

Lemma result_by_seen k files1 files2 :
  seen k files1 = seen k files2 →
  result_of (run_call k files1) = result_of (run_call k files2).
Proof.
  intros Hs. apply observed_by_seen in Hs. unfold observed, result_of in *.
  congruence.
Qed.

Lemma step_applied k files :
  result_of (run_call k files) = Some Applied →
  ∃ c orig_bytes new_bytes,
    files !! c_file k = Some (Regular c)
    ∧ decode_pair (c_orig k) (c_new k) = Ok (orig_bytes, new_bytes)
    ∧ 0 ≤ c_offset k ≤ OFF_T_MAX
    ∧ read_at c (Z.to_nat (c_offset k)) (length orig_bytes) = orig_bytes
    ∧ step k files
      = <[c_file k := Regular (write_at c (Z.to_nat (c_offset k)) new_bytes)]> files.
Proof. apply applied_inv. Qed.

Lemma step_not_applied k files :
  result_of (run_call k files) ≠ Some Applied → step k files = files.
Proof.
  unfold step. rewrite run_call_summary.
  summary_cases; crush_run; destruct (c_script k); crush_run.
Qed.

Lemma separate_sym k1 k2 : separate k1 k2 → separate k2 k1.
Proof.
  intros [Hne|(ob1 & nb1 & ob2 & nb2 & ? & ? & ? & ? & ? & ? & Hdis)].
  - by left.
  - right. exists ob2, nb2, ob1, nb1. repeat split; try done. tauto.
Qed.

(** A call sees the same before and after a call that is separate from it. *)
Lemma separate_seen k1 k2 files :
  separate k1 k2 → seen k1 (step k2 files) = seen k1 files.
Proof.
  intros Hsep.
  destruct (decide (result_of (run_call k2 files) = Some Applied)) as [Happ|Hno];
    [|by rewrite step_not_applied].
  destruct (step_applied k2 files Happ) as (c & ob & nb & Hc & Hd & Hoff & Hr & ->).
  unfold seen.
  destruct (decide (c_file k1 = c_file k2)) as [Heq|Hne];
    [|by rewrite lookup_insert_ne].
  rewrite Heq, lookup_insert_eq, Hc.
  destruct Hsep as [?|(ob1 & nb1 & ob2 & nb2 & Hd1 & Hd2 & Hn1 & Hn2 & Ho1 & Ho2 & Hdis)];
    [done|].
  rewrite Hd in Hd2. injection Hd2 as <- <-. rewrite Hd1.
  do 2 f_equal. apply read_at_write_at_disjoint.
  - pose proof (read_at_full _ _ _ Hr Hn2). lia.
  - unfold window_end in Hdis. lia.
Qed.

(** Two separate calls can be made in either order: the file system they
    leave is the same. *)
Lemma separate_commute k1 k2 files :
  separate k1 k2 → step k1 (step k2 files) = step k2 (step k1 files).
Proof.
  intros Hsep.
  pose proof (result_by_seen k1 _ _ (separate_seen k1 k2 files Hsep)) as R1.
  pose proof (result_by_seen k2 _ _ (separate_seen k2 k1 files (separate_sym _ _ Hsep)))
    as R2.
  destruct (decide (result_of (run_call k1 files) = Some Applied)) as [A1|N1];
    destruct (decide (result_of (run_call k2 files) = Some Applied)) as [A2|N2].
  - assert (A1' := A1). assert (A2' := A2). rewrite <- R1 in A1'. rewrite <- R2 in A2'.
    destruct (step_applied _ _ A1') as (c1' & ob1 & nb1 & Hc1' & Hd1 & Ho1 & Hr1' & ->).
    destruct (step_applied _ _ A2') as (c2' & ob2 & nb2 & Hc2' & Hd2 & Ho2 & Hr2' & ->).
    destruct (step_applied _ _ A1) as (c1 & ? & ? & Hc1 & Hd1' & _ & Hr1 & E1).
    destruct (step_applied _ _ A2) as (c2 & ? & ? & Hc2 & Hd2' & _ & Hr2 & E2).
    rewrite Hd1 in Hd1'. injection Hd1' as <- <-.
    rewrite Hd2 in Hd2'. injection Hd2' as <- <-.
    rewrite E1 in Hc2' |- *. rewrite E2 in Hc1' |- *.
    destruct (decide (c_file k1 = c_file k2)) as [Heq|Hne].
    + rewrite Heq in *. rewrite lookup_insert_eq in Hc1', Hc2'.
      injection Hc1' as <-. injection Hc2' as <-.
      rewrite Hc1 in Hc2. injection Hc2 as <-.
      rewrite !insert_insert_eq. do 2 f_equal.
      destruct Hsep as [?|(? & ? & ? & ? & Hd1' & Hd2' & Hn1 & Hn2 & _ & _ & Hdis)];
        [done|].
      rewrite Hd1 in Hd1'. injection Hd1' as <- <-.
      rewrite Hd2 in Hd2'. injection Hd2' as <- <-.
      pose proof (read_at_full _ _ _ Hr1 Hn1).
      pose proof (read_at_full _ _ _ Hr2 Hn2).
      unfold window_end in Hdis.
      symmetry. apply write_at_commute; lia.
    + rewrite lookup_insert_ne in Hc1', Hc2' by done.
      rewrite Hc1 in Hc1'. injection Hc1' as <-.
      rewrite Hc2 in Hc2'. injection Hc2' as <-.
      by apply insert_insert_ne.
  - rewrite (step_not_applied k2 files N2).
    rewrite (step_not_applied k2 (step k1 files)); [done | congruence].
  - rewrite (step_not_applied k1 files N1).
    rewrite (step_not_applied k1 (step k2 files)); [done | congruence].
  - rewrite (step_not_applied k1 files N1), (step_not_applied k2 files N2).
    by rewrite (step_not_applied k1 files N1).
Qed.

(** X9.  Two calls that name different files, or that work on windows of
    one file that do not overlap, can be made in either order: the file
    system they leave is the same, and each call returns, prints and issues
    what it does when it is made alone. *)
Theorem separate_calls_commute k1 k2 files :
  separate k1 k2 →
  step k1 (step k2 files) = step k2 (step k1 files)
  ∧ observed (run_call k1 (step k2 files)) = observed (run_call k1 files)
  ∧ observed (run_call k2 (step k1 files)) = observed (run_call k2 files).
Proof.
  intros Hsep. split; [by apply separate_commute|].
  split; apply observed_by_seen, separate_seen; [done | by apply separate_sym].
Qed.

Lemma separate_calls_commute_witness :
  let k1 := Call CtfRespawn "srv" 1 "50 56" "56 50" in
  let k2 := Call CtfFlagsMap "srv" 4 "D8 05" "d9 54 24" in
  let files : gmap string node :=
    {[ "srv"%string := Regular [x90; x50; x56; x90; xd8; x05; x58] ]} in
  step k1 (step k2 files) = step k2 (step k1 files)
  ∧ observed (run_call k1 (step k2 files)) = observed (run_call k1 files)
  ∧ observed (run_call k2 (step k1 files)) = observed (run_call k2 files).
Proof.
  intros k1 k2 files. apply separate_calls_commute.
  right. exists [x50; x56], [x56; x50], [xd8; x05], [xd9; x54; x24].
  repeat split; try reflexivity; try discriminate.
  left. vm_compute. discriminate.
Defined.

(** *** The scripts as programs *)

Lemma main_of_calls s :
  main_of s
  = io_bind (patch_file_of s (c_file (static_call s)) (c_offset (static_call s))
                           (c_orig (static_call s)) (c_new (static_call s)))
            (λ _, patch_file_of s (c_file (dynamic_call s)) (c_offset (dynamic_call s))
                                (c_orig (dynamic_call s)) (c_new (dynamic_call s))).
Proof. by destruct s. Qed.

Lemma script_of_calls s :
  c_script (static_call s) = s ∧ c_script (dynamic_call s) = s.
Proof. by destruct s. Qed.

(** The run of [main]: the first call, and the second unless an exception
    escaped the first. *)
Lemma run_main s files :
  run (main_of s) files
  = let r1 := run_call (static_call s) files in
    let r2 := run_call (dynamic_call s) (files_after r1) in
    match exit r1 with
    | Ok _ =>
        RunResult (exit r2) (files_after r2) (printed r1 ++ printed r2)
                  (trace r1 ++ trace r2)
    | Raise e => RunResult (Raise e) (files_after r1) (printed r1) (trace r1)
    end.
Proof.
  rewrite main_of_calls. unfold run, io_bind, boot. rewrite exec_summary. simpl.
  unfold run_call. destruct (script_of_calls s) as [-> ->].
  rewrite !run_summary.
  destruct (exit (summary s _ _ _ _ files)) as [[]|e]; [|done].
  by rewrite exec_summary.
Qed.

Lemma shipped_calls s :
  shipped_call (static_call s) (patch_len s)
  ∧ shipped_call (dynamic_call s) (patch_len s)
  ∧ c_file (static_call s) ≠ c_file (dynamic_call s).
Proof.
  destruct s; (split; [|split]); try done; (split; [|done]); simpl.
  - apply respawn_static_shipped.
  - apply respawn_dynamic_shipped.
  - apply flags_map_static_shipped.
  - apply flags_map_dynamic_shipped.
Qed.

Lemma shipped_exit k len files :
  shipped_call k len → exit (run_call k files) = Ok tt.
Proof.
  intros [(ob & nb & Hd & _) Hoff]. rewrite run_call_summary.
  summary_cases; crush_run.
Qed.

(** The two calls of a script name different files. *)
Lemma static_dynamic_separate s s' :
  separate (static_call s) (dynamic_call s')
  ∧ separate (dynamic_call s') (static_call s).
Proof. split; left; by destruct s, s'. Qed.

(** X10.  [main] of either script never lets an exception escape, whatever
    the file system is, and it processes both descriptors: it prints and
    issues what the call on the static binary and then the call on the
    dynamic binary print and issue when each is made alone on the initial
    file system, and the files it leaves are those the two calls leave, in
    either order. *)
Theorem main_runs_both_calls s files :
  let r := run (main_of s) files in
  let rs := run_call (static_call s) files in
  let rd := run_call (dynamic_call s) files in
  exit r = Ok tt
  ∧ printed r = printed rs ++ printed rd
  ∧ trace r = trace rs ++ trace rd
  ∧ files_after r = step (dynamic_call s) (step (static_call s) files)
  ∧ files_after r = step (static_call s) (step (dynamic_call s) files).
Proof.
  intros r rs rd. subst r rs rd. rewrite run_main. simpl.
  destruct (shipped_calls s) as (Hs & Hd & _).
  destruct (static_dynamic_separate s s) as [Hsd Hds].
  rewrite (shipped_exit _ _ files Hs).
  pose proof (observed_by_seen _ _ _ (separate_seen _ _ files Hds)) as Hobs.
  unfold observed, step in Hobs. injection Hobs as He Hp Ht.
  cbn [exit printed trace files_after].
  rewrite (shipped_exit _ _ _ Hd), Hp, Ht.
  repeat split. symmetry. by apply separate_commute.
Qed.

(** Making a call twice leaves what making it once leaves. *)
Lemma step_idemp k files : step k (step k files) = step k files.
Proof.
  destruct (decide (result_of (run_call k files) = Some Applied)) as [A|N];
    [|by rewrite !(step_not_applied k files N)].
  destruct (step_applied k files A) as (c & ob & nb & Hc & Hd & Hoff & Hr & E).
  destruct (decide (result_of (run_call k (step k files)) = Some Applied)) as [A'|N'];
    [|by rewrite (step_not_applied _ _ N')].
  destruct (step_applied _ _ A') as (c' & ob' & nb' & Hc' & Hd' & _ & _ & ->).
  rewrite Hd in Hd'. injection Hd' as <- <-.
  rewrite E in Hc' |- *. rewrite lookup_insert_eq in Hc'. injection Hc' as <-.
  by rewrite insert_insert_eq, write_at_idemp.
Qed.

(** A call of the scripts made again reports AlreadyApplied where it
    reported Applied, and otherwise what it reported. *)
Lemma shipped_again k len files :
  shipped_call k len →
  reported (printed (run_call k (step k files)))
  = settle <$> reported (printed (run_call k files)).
Proof.
  intros [(ob & nb & Hd & Hlo & Hln & Hne) Hoff].
  destruct (decide (result_of (run_call k files) = Some Applied)) as [A|N].
  - destruct (step_applied k files A) as (c & ob' & nb' & Hc & Hd' & _ & Hr & ->).
    rewrite Hd in Hd'. injection Hd' as <- <-.
    rewrite !run_call_summary. unfold summary, length_check.
    rewrite lookup_insert_eq, Hc, Hd.
    rewrite !(bool_decide_eq_false_2 (_ ∨ _)), !(bool_decide_eq_false_2 (_ < 0))
      by off_lia.
    rewrite (bool_decide_eq_false_2 (length ob ≠ length nb)) by lia.
    rewrite (bool_decide_eq_true_2 _ Hr).
    assert (Hb : read_at (write_at c (Z.to_nat (c_offset k)) nb)
                   (Z.to_nat (c_offset k)) (length ob) = nb)
      by (apply read_back; [done | lia]).
    rewrite Hb.
    rewrite (bool_decide_eq_false_2 (nb = ob)) by done.
    by rewrite (bool_decide_eq_true_2 (nb = nb)) by done.
  - rewrite (step_not_applied k files N).
    revert N. rewrite run_call_summary.
    summary_cases; crush_run; destruct (c_script k); crush_run.
Qed.

Lemma reported_app out1 out2 : reported (out1 ++ out2) = reported out1 ++ reported out2.
Proof. unfold reported. apply omap_app. Qed.

(** X11.  Running [main] of a script a second time changes no file, and it
    reports for each descriptor what the first run reported, with
    AlreadyApplied in place of Applied. *)
Theorem main_twice s files :
  let r1 := run (main_of s) files in
  let r2 := run (main_of s) (files_after r1) in
  files_after r2 = files_after r1
  ∧ reported (printed r2) = settle <$> reported (printed r1)
  ∧ Applied ∉ reported (printed r2).
Proof.
  intros r1 r2.
  destruct (shipped_calls s) as (Hs & Hd & _).
  destruct (static_dynamic_separate s s) as [Hsd Hds].
  set (a := static_call s) in *. set (b := dynamic_call s) in *.
  assert (Hfiles : ∀ f, files_after (run (main_of s) f) = step b (step a f)).
  { intros f. rewrite run_main. cbn zeta. fold a b.
    by rewrite (shipped_exit _ _ f Hs). }
  assert (Hprint : ∀ f, reported (printed (run (main_of s) f))
                        = reported (printed (run_call a f))
                          ++ reported (printed (run_call b (step a f)))).
  { intros f. rewrite run_main. cbn zeta. fold a b.
    rewrite (shipped_exit _ _ f Hs). by rewrite <- reported_app. }
  assert (H2 : reported (printed r2) = settle <$> reported (printed r1)).
  { subst r1 r2. rewrite Hfiles, !Hprint, fmap_app. f_equal.
    - pose proof (observed_by_seen _ _ _ (separate_seen a b (step a files) Hsd)) as Ho.
      unfold observed in Ho. injection Ho as _ -> _.
      apply (shipped_again _ _ _ Hs).
    - rewrite (separate_commute a b (step a files) Hsd), step_idemp.
      apply (shipped_again _ _ _ Hd). }
  split; [|split; [exact H2|]].
  - subst r1 r2. rewrite !Hfiles.
    rewrite (separate_commute a b (step a files) Hsd).
    by rewrite step_idemp, step_idemp.
  - rewrite H2. intros (x & Hx & _)%list_elem_of_fmap. by destruct x.
Qed.

(** What a call of the scripts leaves of a file: a regular file keeps its
    length, and its bytes outside the window of the call; anything else is
    left as it is. *)
Lemma shipped_frame k len files path :
  shipped_call k len →
  match files !! path with
  | Some (Regular c) =>
      ∃ c', step k files !! path = Some (Regular c')
            ∧ length c' = length c
            ∧ ∀ i, c' !! i ≠ c !! i →
                   path = c_file k
                   ∧ c_offset k ≤ Z.of_nat i < c_offset k + Z.of_nat len
  | other => step k files !! path = other
  end.
Proof.
  intros [(ob & nb & Hd & Hlo & Hln & Hne) Hoff].
  destruct (decide (result_of (run_call k files) = Some Applied)) as [A|N].
  - destruct (step_applied k files A) as (c & ob' & nb' & Hc & Hd' & _ & Hr & ->).
    rewrite Hd in Hd'. injection Hd' as <- <-.
    assert (Hob : ob ≠ []) by (intros ->; destruct nb; [done | simpl in *; lia]).
    pose proof (read_at_full _ _ _ Hr Hob) as Hfull.
    destruct (decide (path = c_file k)) as [->|Hp].
    + rewrite lookup_insert_eq, Hc. eexists. split; [done|]. split.
      * apply length_write_at. lia.
      * intros i Hi. split; [done|].
        destruct (decide (Z.to_nat (c_offset k) ≤ i
                          < Z.to_nat (c_offset k) + length nb)%nat) as [?|Hout];
          [lia|].
        destruct Hi. apply write_at_outside; lia.
    + rewrite lookup_insert_ne by done.
      destruct (files !! path) as [[c0|]|]; try done.
      exists c0. by repeat split.
  - rewrite (step_not_applied k files N).
    destruct (files !! path) as [[c0|]|]; try done.
    exists c0. by repeat split.
Qed.

(** X12.  [main] of a script touches nothing but the two windows: every
    regular file keeps its length, a byte that changed lies in the static
    binary at the window of the static descriptor or in the dynamic binary
    at the window of the dynamic one, and a path that is missing or cannot
    be opened is left as it is. *)
Theorem main_frame s files path :
  let r := run (main_of s) files in
  match files !! path with
  | Some (Regular c) =>
      ∃ c', files_after r !! path = Some (Regular c')
            ∧ length c' = length c
            ∧ ∀ i, c' !! i ≠ c !! i →
                   (path = c_file (static_call s)
                    ∧ c_offset (static_call s) ≤ Z.of_nat i
                      < c_offset (static_call s) + Z.of_nat (patch_len s))
                   ∨ (path = c_file (dynamic_call s)
                      ∧ c_offset (dynamic_call s) ≤ Z.of_nat i
                        < c_offset (dynamic_call s) + Z.of_nat (patch_len s))
  | other => files_after r !! path = other
  end.
Proof.
  intros r. subst r. rewrite run_main. cbn zeta.
  destruct (shipped_calls s) as (Hs & Hd & _).
  rewrite (shipped_exit _ _ files Hs). cbn [files_after]. fold (step (static_call s) files).
  fold (step (dynamic_call s) (step (static_call s) files)).
  pose proof (shipped_frame _ _ files path Hs) as F1.
  pose proof (shipped_frame _ _ (step (static_call s) files) path Hd) as F2.
  destruct (files !! path) as [[c|]|].
  - destruct F1 as (c1 & Hc1 & Hl1 & Hi1). rewrite Hc1 in F2.
    destruct F2 as (c2 & Hc2 & Hl2 & Hi2).
    exists c2. split; [done|]. split; [congruence|].
    intros i Hi. destruct (decide (c2 !! i = c1 !! i)) as [Heq|Hne].
    + left. apply Hi1. congruence.
    + right. by apply Hi2.
  - by rewrite F1 in F2.
  - by rewrite F1 in F2.
Qed.

Lemma main_frame_witness :
  let files : gmap string node :=
    {[ "bf1942_lnxded.static"%string := Regular [x7f; x45; x4c; x46] ]} in
  let r := run (main_of CtfRespawn) files in
  ∃ c', files_after r !! "bf1942_lnxded.static" = Some (Regular c')
        ∧ length c' = 4%nat
        ∧ ∀ i, c' !! i ≠ [x7f; x45; x4c; x46] !! i →
               ("bf1942_lnxded.static"%string = c_file (static_call CtfRespawn)
                ∧ c_offset (static_call CtfRespawn) ≤ Z.of_nat i
                  < c_offset (static_call CtfRespawn) + Z.of_nat (patch_len CtfRespawn))
               ∨ ("bf1942_lnxded.static"%string = c_file (dynamic_call CtfRespawn)
                  ∧ c_offset (dynamic_call CtfRespawn) ≤ Z.of_nat i
                    < c_offset (dynamic_call CtfRespawn)
                      + Z.of_nat (patch_len CtfRespawn)).
Proof.
  intros files.
  exact (main_frame CtfRespawn files "bf1942_lnxded.static").
Defined.

(** The calls of the two scripts are separate from each other: different
    files, or windows of one file that do not overlap. *)
Lemma scripts_separate :
  separate (static_call CtfRespawn) (static_call CtfFlagsMap)
  ∧ separate (dynamic_call CtfRespawn) (dynamic_call CtfFlagsMap).
Proof.
  destruct (shipped_calls CtfRespawn) as ([(o1 & n1 & D1 & L1 & M1 & _) _] &
                                          [(o2 & n2 & D2 & L2 & M2 & _) _] & _).
  destruct (shipped_calls CtfFlagsMap) as ([(o3 & n3 & D3 & L3 & M3 & _) _] &
                                           [(o4 & n4 & D4 & L4 & M4 & _) _] & _).
  split; right.
  - exists o1, n1, o3, n3. repeat split; try done.
    + intros ->. simpl in L1. lia.
    + intros ->. simpl in L3. lia.
    + left. unfold window_end. rewrite L1, M1. simpl. vm_compute. discriminate.
  - exists o2, n2, o4, n4. repeat split; try done.
    + intros ->. simpl in L2. lia.
    + intros ->. simpl in L4. lia.
    + left. unfold window_end. rewrite L2, M2. simpl. vm_compute. discriminate.
Qed.

(** X13.  The two scripts can be run in either order: the files they leave
    are the same, and each script prints what it prints when it is run
    first. *)
Theorem scripts_commute files :
  let respawn := main_of CtfRespawn in
  let flags_map := main_of CtfFlagsMap in
  files_after (run flags_map (files_after (run respawn files)))
  = files_after (run respawn (files_after (run flags_map files)))
  ∧ printed (run flags_map (files_after (run respawn files)))
    = printed (run flags_map files)
  ∧ printed (run respawn (files_after (run flags_map files)))
    = printed (run respawn files).
Proof.
  intros respawn flags_map. subst respawn flags_map.
  destruct (shipped_calls CtfRespawn) as (SR & _ & _).
  destruct (shipped_calls CtfFlagsMap) as (SF & _ & _).
  set (a := static_call CtfRespawn) in *. set (b := dynamic_call CtfRespawn).
  set (c := static_call CtfFlagsMap) in *. set (d := dynamic_call CtfFlagsMap).
  destruct scripts_separate as [Hac Hbd]. fold a b c d in Hac, Hbd.
  destruct (static_dynamic_separate CtfRespawn CtfFlagsMap) as [Had Hda].
  destruct (static_dynamic_separate CtfFlagsMap CtfRespawn) as [Hcb Hbc].
  destruct (static_dynamic_separate CtfRespawn CtfRespawn) as [Hab Hba].
  destruct (static_dynamic_separate CtfFlagsMap CtfFlagsMap) as [Hcd Hdc].
  fold a b c d in Had, Hda, Hcb, Hbc, Hab, Hba, Hcd, Hdc.
  pose proof (separate_sym _ _ Hac) as Hca. pose proof (separate_sym _ _ Hbd) as Hdb.
  assert (HR : ∀ f, files_after (run (main_of CtfRespawn) f) = step b (step a f)
                    ∧ printed (run (main_of CtfRespawn) f)
                      = printed (run_call a f) ++ printed (run_call b (step a f))).
  { intros f. rewrite run_main. cbn zeta. fold a b.
    by rewrite (shipped_exit _ _ f SR). }
  assert (HF : ∀ f, files_after (run (main_of CtfFlagsMap) f) = step d (step c f)
                    ∧ printed (run (main_of CtfFlagsMap) f)
                      = printed (run_call c f) ++ printed (run_call d (step c f))).
  { intros f. rewrite run_main. cbn zeta. fold c d.
    by rewrite (shipped_exit _ _ f SF). }
  assert (Hpr : ∀ k1 k2 f, separate k1 k2 →
                printed (run_call k1 (step k2 f)) = printed (run_call k1 f)).
  { intros k1 k2 f Hsep.
    pose proof (observed_by_seen _ _ _ (separate_seen k1 k2 f Hsep)) as Ho.
    unfold observed in Ho. congruence. }
  split; [|split].
  - rewrite (proj1 (HF _)), (proj1 (HR _)), (proj1 (HR _)), (proj1 (HF _)).
    rewrite (separate_commute c b (step a files) Hcb).
    rewrite (separate_commute c a files Hca).
    rewrite (separate_commute d b (step a (step c files)) Hdb).
    by rewrite (separate_commute d a (step c files) Hda).
  - rewrite (proj2 (HF _)), (proj2 (HF _)), (proj1 (HR _)). f_equal.
    + by rewrite (Hpr c b _ Hcb), (Hpr c a _ Hca).
    + rewrite (separate_commute c b (step a files) Hcb).
      rewrite (separate_commute c a files Hca).
      by rewrite (Hpr d b _ Hdb), (Hpr d a _ Hda).
  - rewrite (proj2 (HR _)), (proj2 (HR _)), (proj1 (HF _)). f_equal.
    + by rewrite (Hpr a d _ Had), (Hpr a c _ Hac).
    + rewrite (separate_commute a d (step c files) Had).
      rewrite (separate_commute a c files Hac).
      by rewrite (Hpr b d _ Hbd), (Hpr b c _ Hbc).
Qed.

(** *** Undoing a patch *)

Lemma decode_pair_swap original_hex new_hex orig_bytes new_bytes :
  decode_pair original_hex new_hex = Ok (orig_bytes, new_bytes) →
  decode_pair new_hex original_hex = Ok (new_bytes, orig_bytes).
Proof.
  unfold decode_pair.
  destruct (unhexlify (replace_space original_hex)) as [ob|]; [|done].
  destruct (unhexlify (replace_space new_hex)) as [nb|]; [|done].
  by intros [= <- <-].
Qed.

(** Writing back, over a window that was overwritten, the bytes it held
    gives the content there was. *)
Lemma write_at_restore (c : bytes) pos (ob nb : bytes) :
  read_at c pos (length ob) = ob →
  length ob = length nb →
  write_at (write_at c pos nb) pos ob = c.
Proof.
  intros Hr Hlen. destruct (decide (ob = [])) as [->|Hne].
  { by destruct nb. }
  pose proof (read_at_full c pos ob Hr Hne) as Hfull.
  apply list_eq. intros i.
  pose proof (length_write_at_ge c pos nb ltac:(lia)).
  rewrite !lookup_write_at by lia.
  case_decide as Hi; [|case_decide; [lia | done]].
  rewrite <- Hr at 1. rewrite lookup_read_at.
  case_decide; [f_equal|]; lia.
Qed.

(** X14.  A patch that was applied is undone by the call with the two texts
    exchanged, when they decode to sequences of the same length: that call
    reports Applied in its turn and the file system is again what it was
    before the patch. *)
Theorem swapped_call_undoes s filename offset original_hex new_hex files
    orig_bytes new_bytes :
  decode_pair original_hex new_hex = Ok (orig_bytes, new_bytes) →
  length orig_bytes = length new_bytes →
  let r1 := run (patch_file_of s filename offset original_hex new_hex) files in
  let r2 := run (patch_file_of s filename offset new_hex original_hex)
                (files_after r1) in
  result_of r1 = Some Applied →
  result_of r2 = Some Applied ∧ files_after r2 = files.
Proof.
  intros Hd Hlen r1 r2 Happ. subst r1 r2.
  destruct (applied_inv s _ _ _ _ _ Happ)
    as (c & ob & nb & Hc & Hd' & Hoff & Hr & ->).
  rewrite Hd in Hd'. injection Hd' as <- <-.
  rewrite run_summary. unfold summary, length_check.
  rewrite lookup_insert_eq, (decode_pair_swap _ _ _ _ Hd).
  rewrite !(bool_decide_eq_false_2 (_ ∨ _)), !(bool_decide_eq_false_2 (_ < 0))
    by off_lia.
  rewrite (bool_decide_eq_false_2 (length new_bytes ≠ length orig_bytes)) by lia.
  assert (Hb : read_at (write_at c (Z.to_nat offset) new_bytes)
                 (Z.to_nat offset) (length new_bytes) = new_bytes)
    by (rewrite <- Hlen; by apply read_back).
  rewrite (bool_decide_eq_true_2 _ Hb). split; [done|]. cbn [files_after].
  rewrite insert_insert_eq, write_at_restore by done.
  by apply insert_id.
Qed.

Lemma swapped_call_undoes_witness :
  let files : gmap string node := {[ "srv"%string := Regular [x90; x50; x56; x90] ]} in
  let r1 := run (patch_file_of CtfRespawn "srv" 1 "50 56" "56 50") files in
  let r2 := run (patch_file_of CtfRespawn "srv" 1 "56 50" "50 56") (files_after r1) in
  result_of r2 = Some Applied ∧ files_after r2 = files.
Proof.
  intros files.
  apply (swapped_call_undoes CtfRespawn "srv" 1 "50 56" "56 50" files
           [x50; x56] [x56; x50]); reflexivity.
Defined.
